(** * SplineParsedMaterial: a shallow embedding and its properties

    The development follows [src/SplineParsedMaterial.C] and
    [src/SplineParsedMaterial.h].

    Modelling conventions.
    - [Real] (a C++ [double]) is idealised as an exact rational [Q]: every
      finite double is a rational and the comparisons agree on them.  NaN,
      infinities and rounding are outside the model, so an equation
      proved here holds "up to floating-point rounding" in the program.
    - [std::vector<Real>] is a [list Q]; [operator[]] is [nth] and
      [front()]/[back()] are partial: on an empty vector they have no
      defined result.
    - [paramError] aborts the construction; the first one reached wins.
    - The function-local [static bool warned], the host's [_t_step] and
      the warning channel form the state threaded through [computeValue].
    - The double arithmetic of [computeQpProperties] (its probes and
      cross-checks) rounds, so it is an interface of operations on which
      nothing is assumed; the comparisons and selections of the queries
      are exact on finite doubles and are computed on [Q].
    - [computeQpProperties] runs on the host's per-point storage and
      console; the lines it streams to [Moose::out] are kept as lists of
      fragments.  The constructor's [Moose::out] summary is not modelled. *)

From Stdlib Require Import String.
From Stdlib Require Import QArith Qabs ZArith List Bool Lia Arith.
From ExtLib Require Import Structures.Monad Structures.MonadState.
From ExtLib Require Import Data.Monads.StateMonad Data.Monads.OptionMonad.
Import ListNotations.
Import MonadNotation.

Local Open Scope monad_scope.
Local Open Scope Q_scope.

(** ** Real comparisons and the [<algorithm>] helpers *)

Definition Real := Q.

(** [a < b] on reals, as a test. *)
Definition Qltb (a b : Q) : bool :=
  (Qnum a * QDen b <? Qnum b * QDen a)%Z.

(** [std::min(a, b)] is [(b < a) ? b : a]; [std::max(a, b)] is
    [(a < b) ? b : a]. *)
Definition std_min (a b : Real) : Real := if Qltb b a then b else a.
Definition std_max (a b : Real) : Real := if Qltb a b then b else a.

(** [v.front()] and [v.back()]: defined on non-empty vectors only. *)
Definition front (v : list Real) : option Real :=
  match v with
  | [] => None
  | a :: _ => Some a
  end.

Definition back (v : list Real) : option Real :=
  match v with
  | [] => None
  | a :: w => Some (last w a)
  end.

(** ** Notifications and construction outcomes *)

Inductive Notification :=
| WarnVariableMismatch (spline_var_name var_name : string)
| WarnOutsideDomain (c x_min x_max : Real).

(** What running the constructor leads to: an object (with the warnings
    raised on the way), a [paramError] on a named parameter, or no defined
    behaviour at all. *)
Inductive Outcome (A : Type) :=
| Constructed (obj : A) (log : list Notification)
| ParamError (param msg : string)
| UndefinedBehaviour.

Arguments Constructed {A} obj log.
Arguments ParamError {A} param msg.
Arguments UndefinedBehaviour {A}.

(** The three construction errors, under the names the specification uses. *)
Definition LengthMismatch {A} : Outcome A :=
  ParamError "y" "x and y arrays must have the same size".
Definition InsufficientPoints {A} : Outcome A :=
  ParamError "x" "At least two data points are required for spline interpolation".
Definition NotStrictlyIncreasing {A} : Outcome A :=
  ParamError "x" "x values must be strictly increasing".

(** ** The interface of [SplineInterpolation]

    [SplineInterpolation.h] belongs to the host framework; the material
    only calls [setData], [sample], [sampleDerivative] and
    [sample2ndDerivative]. *)
Class SplineInterpolation (T : Type) := {
  setData : list Real -> list Real -> Real -> Real -> T;
  sample : T -> Real -> Real;
  sampleDerivative : T -> Real -> Real;
  sample2ndDerivative : T -> Real -> Real
}.

(** ** Input parameters ([validParams]) *)

Record InputParameters := {
  x : list Real;
  y : list Real;
  yp1 : Real;
  ypn : Real;
  spline_variable : string;
  coupled_variables : string;
  property_name : string;
  derivative_order : N;
  enable_jit : bool
}.

(** The defaults [validParams] declares for the optional parameters. *)
Definition validParams (x y : list Real)
    (spline_variable coupled_variables property_name : string)
  : InputParameters :=
  {| x := x; y := y;
     yp1 := 1000000000000000000000000000000 # 1;
     ypn := 1000000000000000000000000000000 # 1;
     spline_variable := spline_variable;
     coupled_variables := coupled_variables;
     property_name := property_name;
     derivative_order := 2%N;
     enable_jit := false |}.

(** ** The state a value query runs in *)

Record Host := {
  warned : bool;                     (* static bool warned *)
  t_step : Z;                        (* _t_step *)
  notifications : list Notification  (* what mooseWarning has emitted *)
}.

Definition mooseWarning (n : Notification) : state Host unit :=
  modify (fun h => {| warned := warned h; t_step := t_step h;
                      notifications := notifications h ++ [n] |}) ;;
  ret tt.

Definition set_warned (b : bool) : state Host unit :=
  modify (fun h => {| warned := b; t_step := t_step h;
                      notifications := notifications h |}) ;;
  ret tt.

Module SplineParsedMaterial.
Section Material.

Context {T : Type} `{SplineInterpolation T}.

(** The data members the queries and the claims depend on. *)
Record t := {
  _spline : T;
  _x_values : list Real;
  _y_values : list Real;
  _property_name : string;
  _var_name : string;
  _derivative_order : N;
  _dF_dc : bool;       (* the first-derivative property is declared *)
  _d2F_dc2 : bool;     (* the second-derivative property is declared *)
  _x_min : Real;
  _x_max : Real
}.

(** The monotonicity loop: some [i] in [1 .. size-1] has
    [x[i] <= x[i-1]]. *)
Definition not_increasing_at (xs : list Real) (i : nat) : bool :=
  Qle_bool (nth i xs 0) (nth (i - 1) xs 0).

Definition monotonicity_violated (xs : list Real) : bool :=
  existsb (not_increasing_at xs) (seq 1 (length xs - 1)).

(** The constructor.  The initializer list caches [_x_values.front()] and
    [_x_values.back()] first; the body then validates, builds the spline,
    warns about a mismatching [spline_variable] and declares the
    derivative properties. *)
Definition SplineParsedMaterial (parameters : InputParameters) : Outcome t :=
  match front (x parameters), back (x parameters) with
  | Some x_min, Some x_max =>
      if negb (length (x parameters) =? length (y parameters))%nat then
        ParamError "y" "x and y arrays must have the same size"
      else if (length (x parameters) <? 2)%nat then
        ParamError "x"
          "At least two data points are required for spline interpolation"
      else if monotonicity_violated (x parameters) then
        ParamError "x" "x values must be strictly increasing"
      else
        Constructed
          {| _spline := setData (x parameters) (y parameters)
                                (yp1 parameters) (ypn parameters);
             _x_values := x parameters;
             _y_values := y parameters;
             _property_name := property_name parameters;
             _var_name := coupled_variables parameters;
             _derivative_order := derivative_order parameters;
             _dF_dc := (1 <=? derivative_order parameters)%N;
             _d2F_dc2 := (2 <=? derivative_order parameters)%N;
             _x_min := x_min;
             _x_max := x_max |}
          (if String.eqb (spline_variable parameters)
                         (coupled_variables parameters)
           then []
           else [WarnVariableMismatch (spline_variable parameters)
                                      (coupled_variables parameters)])
  | _, _ => UndefinedBehaviour
  end.

(** [computeValue]: clamp to the domain (warning once, during time step 0),
    then sample. *)
Definition computeValue (m : t) (c : Real) : state Host Real :=
  c <- (if Qltb c (_x_min m) || Qltb (_x_max m) c then
          h <- get ;;
          (if negb (warned h) && (t_step h =? 0)%Z then
             mooseWarning (WarnOutsideDomain c (_x_min m) (_x_max m)) ;;
             set_warned true
           else ret tt) ;;
          ret (std_max (_x_min m) (std_min (_x_max m) c))
        else ret c) ;;
  ret (sample (_spline m) c).

(** [computeDerivative]: clamp to the domain, then dispatch on the
    order.  It runs in the same host state as [computeValue]. *)
Definition computeDerivative (m : t) (c : Real) (order : N) : state Host Real :=
  let c := if Qltb c (_x_min m) || Qltb (_x_max m) c
           then std_max (_x_min m) (std_min (_x_max m) c)
           else c in
  match order with
  | 0%N => ret (sample (_spline m) c)
  | 1%N => ret (sampleDerivative (_spline m) c)
  | 2%N => ret (sample2ndDerivative (_spline m) c)
  | _ => ret 0
  end.

(** The coordinate a query at [c] samples the spline at: the clamping
    statement shared by [computeValue] and [computeDerivative]. *)
Definition clampToDomain (m : t) (c : Real) : Real :=
  if Qltb c (_x_min m) || Qltb (_x_max m) c
  then std_max (_x_min m) (std_min (_x_max m) c)
  else c.

(** Whether [c] lies outside the domain, as both queries test it. *)
Definition outside (m : t) (c : Real) : bool :=
  Qltb c (_x_min m) || Qltb (_x_max m) c.

(** The spline data of an object: what the queries read. *)
Definition splineData (m : t) : T * list Real * list Real * Real * Real :=
  (_spline m, _x_values m, _y_values m, _x_min m, _x_max m).

End Material.
End SplineParsedMaterial.

(** ** The cubic spline engine behind [SplineInterpolation] *)

Module CubicSpline.

(** Modelled from the spec: the [SplineData] of section 3, which
    [SplineInterpolation] (not part of these sources) holds: knots,
    values and the second derivatives solved at construction. *)
Record SplineData := {
  knots : list Real;
  values : list Real;
  y2 : list Real;
  boundary_left : Real;
  boundary_right : Real
}.

(** Modelled from the spec: the sentinel requesting a natural boundary
    (section 3: "a very large magnitude, e.g. 1e30"). *)
Definition natural_sentinel : Real := 1000000000000000000000000000000 # 1.

(** Modelled from the spec: a boundary slope "equals the natural-spline
    sentinel" (section 4.1). *)
Definition is_natural (b : Real) : bool := Qeq_bool b natural_sentinel.

(** Modelled from the spec: the forward sweep of section 4.1 over the
    interior knots [i = 1 .. n-2], producing the decomposition
    coefficients (the temporary [y2[i]] and [u[i]]) from consecutive
    interval ratios; the host's solver is not part of these sources. *)
Fixpoint forward_sweep (xs ys : list Real) (i count : nat)
    (y2_prev u_prev : Real) : list (Real * Real) :=
  match count with
  | O => []
  | S count' =>
      let sig := (nth i xs 0 - nth (i - 1) xs 0)
                 / (nth (i + 1) xs 0 - nth (i - 1) xs 0) in
      let p := sig * y2_prev + 2 in
      let y2_i := (sig - 1) / p in
      let d := (nth (i + 1) ys 0 - nth i ys 0) / (nth (i + 1) xs 0 - nth i xs 0)
               - (nth i ys 0 - nth (i - 1) ys 0) / (nth i xs 0 - nth (i - 1) xs 0) in
      let u_i := (6 * d / (nth (i + 1) xs 0 - nth (i - 1) xs 0) - sig * u_prev) / p in
      (y2_i, u_i) :: forward_sweep xs ys (S i) count' y2_i u_i
  end.

(** Modelled from the spec: the tridiagonal solve of section 4.1 (left
    boundary term, forward sweep, right boundary term, backward
    substitution); a natural boundary puts [0] in the boundary term, a
    clamped one the requested slope. *)
Definition solve (xs ys : list Real) (yp1 ypn : Real) : list Real :=
  let n := length xs in
  let first :=
    if is_natural yp1 then (0, 0)
    else (- (1 # 2),
          (3 / (nth 1 xs 0 - nth 0 xs 0))
          * ((nth 1 ys 0 - nth 0 ys 0) / (nth 1 xs 0 - nth 0 xs 0) - yp1)) in
  let dec := first :: forward_sweep xs ys 1 (n - 2) (fst first) (snd first) in
  let '(qn, un) :=
    if is_natural ypn then (0, 0)
    else (1 # 2,
          (3 / (nth (n - 1) xs 0 - nth (n - 2) xs 0))
          * (ypn - (nth (n - 1) ys 0 - nth (n - 2) ys 0)
                   / (nth (n - 1) xs 0 - nth (n - 2) xs 0))) in
  let '(y2_pen, u_pen) := last dec (0, 0) in
  let y2_last := (un - qn * u_pen) / (qn * y2_pen + 1) in
  fold_right (fun du acc => (fst du * hd 0 acc + snd du) :: acc) [y2_last] dec.

(** Modelled from the spec: the interval location of section 4.2, a
    bisection over the ordered knots that keeps [x[klo] <= c] and stops
    when [khi - klo <= 1]. *)
Fixpoint bisect (fuel : nat) (xs : list Real) (c : Real) (klo khi : nat)
  : nat * nat :=
  match fuel with
  | O => (klo, khi)
  | S fuel' =>
      if (1 <? khi - klo)%nat then
        let k := Nat.div2 (khi + klo) in
        if Qltb c (nth k xs 0)
        then bisect fuel' xs c klo k
        else bisect fuel' xs c k khi
      else (klo, khi)
  end.

(** Modelled from the spec: the search starts from the whole knot range;
    [length xs] steps are more than it needs. *)
Definition findInterval (xs : list Real) (c : Real) : nat * nat :=
  bisect (length xs) xs c 0 (length xs - 1).

(** Modelled from the spec: the evaluation formulas of section 4.2 on the
    interval [[x[i], x[i+1]]] of width [h], with [a = (x[i+1] - c)/h] and
    [b = (c - x[i])/h]. *)
Definition value_formula (h a b y_lo y_hi y2_lo y2_hi : Real) : Real :=
  a * y_lo + b * y_hi
  + ((a ^ 3 - a) * y2_lo + (b ^ 3 - b) * y2_hi) * h ^ 2 / 6.

(** Modelled from the spec: the [firstDerivative] formula of section 4.2. *)
Definition firstDerivative_formula (h a b y_lo y_hi y2_lo y2_hi : Real) : Real :=
  (y_hi - y_lo) / h - (3 * a ^ 2 - 1) / 6 * h * y2_lo
  + (3 * b ^ 2 - 1) / 6 * h * y2_hi.

(** Modelled from the spec: the [secondDerivative] formula of section 4.2. *)
Definition secondDerivative_formula (a b y2_lo y2_hi : Real) : Real :=
  a * y2_lo + b * y2_hi.

(** Modelled from the spec: a query locates the interval of [c], forms
    [h], [a] and [b] there and applies one of the formulas. *)
Definition on_interval (d : SplineData) (c : Real)
    (f : Real -> Real -> Real -> Real -> Real -> Real -> Real -> Real) : Real :=
  let '(klo, khi) := findInterval (knots d) c in
  let h := nth khi (knots d) 0 - nth klo (knots d) 0 in
  let a := (nth khi (knots d) 0 - c) / h in
  let b := (c - nth klo (knots d) 0) / h in
  f h a b (nth klo (values d) 0) (nth khi (values d) 0)
    (nth klo (y2 d) 0) (nth khi (y2 d) 0).

(** Modelled from the spec: the query [value(c)] of section 4.2. *)
Definition value (d : SplineData) (c : Real) : Real :=
  on_interval d c value_formula.

(** Modelled from the spec: the query [firstDerivative(c)] of section 4.2. *)
Definition firstDerivative (d : SplineData) (c : Real) : Real :=
  on_interval d c firstDerivative_formula.

(** Modelled from the spec: the query [secondDerivative(c)] of section 4.2. *)
Definition secondDerivative (d : SplineData) (c : Real) : Real :=
  on_interval d c (fun _ a b _ _ => secondDerivative_formula a b).

(** Modelled from the spec: [build] of section 4.1 once the input is
    validated (the validation itself is the constructor's, above). *)
Definition build (xs ys : list Real) (yp1 ypn : Real) : SplineData :=
  {| knots := xs; values := ys; y2 := solve xs ys yp1 ypn;
     boundary_left := yp1; boundary_right := ypn |}.

(** Modelled from the spec: the engine as the [SplineInterpolation] the
    material calls. *)
#[global] Instance engine : SplineInterpolation SplineData := {
  setData := build;
  sample := value;
  sampleDerivative := firstDerivative;
  sample2ndDerivative := secondDerivative
}.

End CubicSpline.

(** Sanity of the engine on the data of section 8:
    [x = [0,1,2,3,4]], [y = [0,1,0,1,0]], natural boundaries. *)
Definition zigzag : CubicSpline.SplineData :=
  CubicSpline.build [0; 1; 2; 3; 4] [0; 1; 0; 1; 0]
    CubicSpline.natural_sentinel CubicSpline.natural_sentinel.

(** ** Example inputs *)

Definition params_of (xs ys : list Real) : InputParameters :=
  validParams xs ys "c" "c" "F".

(** The object built from [x = [0,1,2,3,4]], [y = [0,1,0,1,0]]. *)
Definition zigzag_material : SplineParsedMaterial.t :=
  {| SplineParsedMaterial._spline := zigzag;
     SplineParsedMaterial._x_values := [0; 1; 2; 3; 4];
     SplineParsedMaterial._y_values := [0; 1; 0; 1; 0];
     SplineParsedMaterial._property_name := "F";
     SplineParsedMaterial._var_name := "c";
     SplineParsedMaterial._derivative_order := 2%N;
     SplineParsedMaterial._dF_dc := true;
     SplineParsedMaterial._d2F_dc2 := true;
     SplineParsedMaterial._x_min := 0;
     SplineParsedMaterial._x_max := 4 |}.

(** The same spline data under another property name, with no derivative
    property requested and a [spline_variable] that does not match. *)
Definition relabelled_params : InputParameters :=
  {| x := [0; 1; 2; 3; 4]; y := [0; 1; 0; 1; 0];
     yp1 := CubicSpline.natural_sentinel; ypn := CubicSpline.natural_sentinel;
     spline_variable := "eta"; coupled_variables := "c";
     property_name := "G"; derivative_order := 0%N; enable_jit := false |}.

Definition relabelled_material : SplineParsedMaterial.t :=
  {| SplineParsedMaterial._spline := zigzag;
     SplineParsedMaterial._x_values := [0; 1; 2; 3; 4];
     SplineParsedMaterial._y_values := [0; 1; 0; 1; 0];
     SplineParsedMaterial._property_name := "G";
     SplineParsedMaterial._var_name := "c";
     SplineParsedMaterial._derivative_order := 0%N;
     SplineParsedMaterial._dF_dc := false;
     SplineParsedMaterial._d2F_dc2 := false;
     SplineParsedMaterial._x_min := 0;
     SplineParsedMaterial._x_max := 4 |}.

(** A host at time step [0] that has not warned yet, and one that has. *)
Definition fresh_host : Host :=
  {| warned := false; t_step := 0; notifications := [] |}.

Definition warned_host : Host :=
  {| warned := true; t_step := 0; notifications := [] |}.

(** Adjacent knots increase strictly. *)
Definition strictly_increasing (xs : list Real) : Prop :=
  forall i, (1 <= i < length xs)%nat -> nth (i - 1) xs 0 < nth i xs 0.

(** ** The quadrature-point loop body ([computeQpProperties])

    The host owns the coupled variable [_c_val], the property storage
    [_f], [*_dF_dc], [*_d2F_dc2] (one entry per quadrature point), the
    current index [_qp] and the console.  Indexing them with [operator[]]
    has a defined result inside the storage only. *)

(** One [Moose::out << ... << std::endl] line, as the fragments streamed. *)
Inductive Fragment :=
| Text (s : string)
| Number (v : Real)
| Index (n : nat).

Definition Line := list Fragment.

Record Assembly := {
  host : Host;
  _qp : nat;
  _c_val : list Real;
  _f : list Real;
  dF_dc_values : list Real;      (* the storage _dF_dc points to *)
  d2F_dc2_values : list Real;    (* the storage _d2F_dc2 points to *)
  console : list Line
}.

(** [v[i] = a] inside the storage. *)
Fixpoint assign (v : list Real) (i : nat) (a : Real) : list Real :=
  match v, i with
  | [], _ => []
  | _ :: w, O => a :: w
  | b :: w, S j => b :: assign w j a
  end.

#[local] Existing Instance Monad_stateT.

(** Computations of the loop body: they thread the assembly state and
    have no result once an index leaves its storage. *)
Definition Qp := stateT Assembly option.

Definition with_host (h : Host) (s : Assembly) : Assembly :=
  {| host := h; _qp := _qp s; _c_val := _c_val s; _f := _f s;
     dF_dc_values := dF_dc_values s; d2F_dc2_values := d2F_dc2_values s;
     console := console s |}.

(** A member function running in the host part of the state. *)
Definition call {A : Type} (q : state Host A) : Qp A :=
  mkStateT (fun s => let (a, h) := runState q (host s) in
                     Some (a, with_host h s)).

(** [storage[_qp]] as an rvalue. *)
Definition read (storage : Assembly -> list Real) : Qp Real :=
  mkStateT (fun s => match nth_error (storage s) (_qp s) with
                     | Some a => Some (a, s)
                     | None => None
                     end).

(** The assignments to entry [_qp] of [_f], of [*_dF_dc] and of
    [*_d2F_dc2]. *)
Definition write_f (a : Real) : Qp unit :=
  mkStateT (fun s =>
    if (_qp s <? length (_f s))%nat then
      Some (tt, {| host := host s; _qp := _qp s; _c_val := _c_val s;
                   _f := assign (_f s) (_qp s) a;
                   dF_dc_values := dF_dc_values s;
                   d2F_dc2_values := d2F_dc2_values s;
                   console := console s |})
    else None).

Definition write_dF_dc (a : Real) : Qp unit :=
  mkStateT (fun s =>
    if (_qp s <? length (dF_dc_values s))%nat then
      Some (tt, {| host := host s; _qp := _qp s; _c_val := _c_val s;
                   _f := _f s;
                   dF_dc_values := assign (dF_dc_values s) (_qp s) a;
                   d2F_dc2_values := d2F_dc2_values s;
                   console := console s |})
    else None).

Definition write_d2F_dc2 (a : Real) : Qp unit :=
  mkStateT (fun s =>
    if (_qp s <? length (d2F_dc2_values s))%nat then
      Some (tt, {| host := host s; _qp := _qp s; _c_val := _c_val s;
                   _f := _f s;
                   dF_dc_values := dF_dc_values s;
                   d2F_dc2_values := assign (d2F_dc2_values s) (_qp s) a;
                   console := console s |})
    else None).

(** [Moose::out << ... << std::endl]. *)
Definition moose_out (l : Line) : Qp unit :=
  mkStateT (fun s =>
    Some (tt, {| host := host s; _qp := _qp s; _c_val := _c_val s;
                 _f := _f s;
                 dF_dc_values := dF_dc_values s;
                 d2F_dc2_values := d2F_dc2_values s;
                 console := console s ++ [l] |})).

(** [_qp == 0 && _t_step == 0]. *)
Definition first_point_of_first_step : Qp bool :=
  mkStateT (fun s =>
    Some ((_qp s =? 0)%nat && (t_step (host s) =? 0)%Z, s)).

(** The double arithmetic of the loop body.  The sums, differences,
    products and quotients of its cross-checks are rounded by the machine,
    so they are kept as the operations of an interface on which nothing
    is assumed; [eps] is the double written [1e-6]. *)
Class DoubleArithmetic := {
  eps : Real;
  fadd : Real -> Real -> Real;
  fsub : Real -> Real -> Real;
  fmul : Real -> Real -> Real;
  fdiv : Real -> Real -> Real;
  fabs : Real -> Real
}.

(** The arithmetic without rounding, for runs on example data. *)
Definition exact_arithmetic : DoubleArithmetic :=
  {| eps := 1 # 1000000;
     fadd := Qplus; fsub := Qminus; fmul := Qmult; fdiv := Qdiv;
     fabs := Qabs |}.

Module QpProperties.
Section Loop.

Context {T : Type} `{SplineInterpolation T} `{DoubleArithmetic}.

Local Abbreviation t := (@SplineParsedMaterial.t T).

(** The value and the derivatives stored for the current point. *)
Definition store (m : t) : Qp (Real * Real) :=
  c_val <- read _c_val ;;
  f_val <- call (SplineParsedMaterial.computeValue m c_val) ;;
  write_f f_val ;;
  (if (1 <=? SplineParsedMaterial._derivative_order m)%N
      && SplineParsedMaterial._dF_dc m
   then
     df_dc <- call (SplineParsedMaterial.computeDerivative m c_val 1) ;;
     write_dF_dc df_dc
   else ret tt) ;;
  (if (2 <=? SplineParsedMaterial._derivative_order m)%N
      && SplineParsedMaterial._d2F_dc2 m
   then
     d2f_dc2 <- call (SplineParsedMaterial.computeDerivative m c_val 2) ;;
     write_d2F_dc2 d2f_dc2
   else ret tt) ;;
  ret (c_val, f_val).

(** The first block under [_qp == 0 && _t_step == 0]: the values and
    their finite-difference cross-checks. *)
Definition verification_output (m : t) (c_val f_val : Real) : Qp unit :=
  first <- first_point_of_first_step ;;
  if first then
    qp <- mkStateT (fun s => Some (_qp s, s)) ;;
    moose_out [Text "=== SPLINE CALCULATION ==="] ;;
    moose_out [Text "At QP "; Index qp; Text ":"] ;;
    moose_out [Text "  c = "; Number c_val] ;;
    moose_out [Text "  f(c) = "; Number f_val] ;;
    (if SplineParsedMaterial._dF_dc m then
       df_dc <- read dF_dc_values ;;
       moose_out [Text "  df/dc = "; Number df_dc] ;;
       f_plus <- call (SplineParsedMaterial.computeValue m (fadd c_val eps)) ;;
       f_minus <- call (SplineParsedMaterial.computeValue m (fsub c_val eps)) ;;
       let num_df := fdiv (fsub f_plus f_minus) (fmul 2 eps) in
       moose_out [Text "  Numerical df/dc = "; Number num_df] ;;
       moose_out [Text "  Difference = "; Number (fabs (fsub df_dc num_df))]
     else ret tt) ;;
    (if SplineParsedMaterial._d2F_dc2 m then
       d2f_dc2 <- read d2F_dc2_values ;;
       moose_out [Text "  d2f/dc2 = "; Number d2f_dc2] ;;
       f_plus <- call (SplineParsedMaterial.computeValue m (fadd c_val eps)) ;;
       f_minus <- call (SplineParsedMaterial.computeValue m (fsub c_val eps)) ;;
       let f_center := f_val in
       let num_d2f :=
         fdiv (fadd (fsub f_plus (fmul 2 f_center)) f_minus) (fmul eps eps) in
       moose_out [Text "  Numerical d2f/dc2 = "; Number num_d2f] ;;
       moose_out [Text "  Difference = "; Number (fabs (fsub d2f_dc2 num_d2f))]
     else ret tt)
  else ret tt.

(** The second block under [_qp == 0 && _t_step == 0]: the list of the
    properties declared. *)
Definition property_check_output (m : t) : Qp unit :=
  first <- first_point_of_first_step ;;
  if first then
    moose_out [Text "=== DERIVATIVE PROPERTY CHECK ==="] ;;
    moose_out [Text "  These properties should be accessible by SplitCHParsed:"] ;;
    moose_out [Text "  - "; Text (SplineParsedMaterial._property_name m);
               Text " (free energy)"] ;;
    (if SplineParsedMaterial._dF_dc m then
       moose_out [Text "  - Derivative of ";
                  Text (SplineParsedMaterial._property_name m);
                  Text " w.r.t. "; Text (SplineParsedMaterial._var_name m)]
     else ret tt) ;;
    (if SplineParsedMaterial._d2F_dc2 m then
       moose_out [Text "  - Second derivative of ";
                  Text (SplineParsedMaterial._property_name m);
                  Text " w.r.t. "; Text (SplineParsedMaterial._var_name m)]
     else ret tt)
  else ret tt.

Definition computeQpProperties (m : t) : Qp unit :=
  cf <- store m ;;
  verification_output m (fst cf) (snd cf) ;;
  property_check_output m.

(** The host calling [computeValue] at one coordinate after another. *)
Fixpoint computeValues (m : t) (cs : list Real) : state Host (list Real) :=
  match cs with
  | [] => ret []
  | c :: cs' =>
      v <- SplineParsedMaterial.computeValue m c ;;
      vs <- computeValues m cs' ;;
      ret (v :: vs)
  end.

(** The guards of the two derivative stores. *)
Definition stores_dF_dc (m : t) : bool :=
  (1 <=? SplineParsedMaterial._derivative_order m)%N
  && SplineParsedMaterial._dF_dc m.

Definition stores_d2F_dc2 (m : t) : bool :=
  (2 <=? SplineParsedMaterial._derivative_order m)%N
  && SplineParsedMaterial._d2F_dc2 m.

(** The assembly once the value and the derivatives at [c_val] are
    stored. *)
Definition stored (m : t) (s : Assembly) (c_val : Real) : Assembly :=
  let c := SplineParsedMaterial.clampToDomain m c_val in
  {| host := execState (SplineParsedMaterial.computeValue m c_val) (host s);
     _qp := _qp s;
     _c_val := _c_val s;
     _f := assign (_f s) (_qp s) (sample (SplineParsedMaterial._spline m) c);
     dF_dc_values :=
       if stores_dF_dc m
       then assign (dF_dc_values s) (_qp s)
                   (sampleDerivative (SplineParsedMaterial._spline m) c)
       else dF_dc_values s;
     d2F_dc2_values :=
       if stores_d2F_dc2 m
       then assign (d2F_dc2_values s) (_qp s)
                   (sample2ndDerivative (SplineParsedMaterial._spline m) c)
       else d2F_dc2_values s;
     console := console s |}.

(** [_qp == 0 && _t_step == 0], read off the assembly. *)
Definition first_point (s : Assembly) : bool :=
  (_qp s =? 0)%nat && (t_step (host s) =? 0)%Z.

(** Every entry the run touches lies inside its storage: [_f[_qp]], the
    derivative entries stored, and the derivative entries printed at the
    first point of the first step. *)
Definition within_storage (m : t) (s : Assembly) : bool :=
  (_qp s <? length (_f s))%nat
  && (negb (stores_dF_dc m) || (_qp s <? length (dF_dc_values s))%nat)
  && (negb (stores_d2F_dc2 m) || (_qp s <? length (d2F_dc2_values s))%nat)
  && (negb (first_point s && SplineParsedMaterial._dF_dc m)
      || (_qp s <? length (dF_dc_values s))%nat)
  && (negb (first_point s && SplineParsedMaterial._d2F_dc2 m)
      || (_qp s <? length (d2F_dc2_values s))%nat).

(** The coordinates at which one run of [computeQpProperties] calls
    [computeValue], in call order: the point value, then the two
    finite-difference probes (the machine's [c_val + eps] and
    [c_val - eps]) of each cross-check that runs. *)
Definition value_queries (m : t) (s : Assembly) : list Real :=
  match nth_error (_c_val s) (_qp s) with
  | None => []
  | Some c_val =>
      let first := (_qp s =? 0)%nat && (t_step (host s) =? 0)%Z in
      c_val
      :: (if first && SplineParsedMaterial._dF_dc m
          then [fadd c_val eps; fsub c_val eps] else [])
      ++ (if first && SplineParsedMaterial._d2F_dc2 m
          then [fadd c_val eps; fsub c_val eps] else [])
  end.

End Loop.
End QpProperties.

(** The entries a run touches for an object built with the given
    [derivative_order] lie inside the host's storage. *)
Definition point_in_storage (order : N) (s : Assembly) : Prop :=
  (_qp s < length (_c_val s))%nat
  /\ (_qp s < length (_f s))%nat
  /\ ((1 <= order)%N -> (_qp s < length (dF_dc_values s))%nat)
  /\ ((2 <= order)%N -> (_qp s < length (d2F_dc2_values s))%nat).

(** The same input with another [spline_variable]. *)
Definition set_spline_variable (v : string) (p : InputParameters)
  : InputParameters :=
  {| x := x p; y := y p; yp1 := yp1 p; ypn := ypn p;
     spline_variable := v;
     coupled_variables := coupled_variables p;
     property_name := property_name p;
     derivative_order := derivative_order p;
     enable_jit := enable_jit p |}.

(** A two-point assembly with the coupled variable at [c] everywhere. *)
Definition assembly_at (c : Real) (qp : nat) (h : Host) : Assembly :=
  {| host := h; _qp := qp; _c_val := [c; c]; _f := [0; 0];
     dF_dc_values := [0; 0]; d2F_dc2_values := [0; 0]; console := [] |}.

(** * Properties *)

(** ** Comparisons *)

Lemma Qltb_lt (a b : Q) : Qltb a b = true <-> a < b.
Proof. unfold Qltb, Qlt. apply Z.ltb_lt. Qed.

Lemma Qltb_nlt (a b : Q) : Qltb a b = false <-> ~ a < b.
Proof.
  rewrite <- Qltb_lt. destruct (Qltb a b); split; congruence.
Qed.

Lemma Qminus_neq (a b : Q) : a < b -> ~ b - a == 0.
Proof.
  intros Hab E. apply Qlt_minus_iff in Hab. unfold Qminus in E.
  rewrite E in Hab. exact (Qlt_irrefl 0 Hab).
Qed.

Lemma Qltb_irrefl (a : Q) : Qltb a a = false.
Proof. apply Qltb_nlt, Qlt_irrefl. Qed.

Lemma Qltb_asym (a b : Q) : Qltb a b = true -> Qltb b a = false.
Proof.
  rewrite Qltb_lt, Qltb_nlt. intros Hab Hba.
  exact (Qlt_irrefl a (Qlt_trans _ _ _ Hab Hba)).
Qed.

Lemma Qltb_trans (a b c : Q) :
  Qltb a b = true -> Qltb b c = true -> Qltb a c = true.
Proof. rewrite !Qltb_lt. apply Qlt_trans. Qed.

(** ** Example runs *)

Example zigzag_constructed :
  SplineParsedMaterial.SplineParsedMaterial
    (params_of [0; 1; 2; 3; 4] [0; 1; 0; 1; 0])
  = Constructed zigzag_material [].
Proof. reflexivity. Qed.

Example relabelled_constructed :
  SplineParsedMaterial.SplineParsedMaterial relabelled_params
  = Constructed relabelled_material [WarnVariableMismatch "eta" "c"].
Proof. reflexivity. Qed.

Example zigzag_natural_ends :
  map Qred (CubicSpline.y2 zigzag) = [0; -30 # 7; 36 # 7; -30 # 7; 0].
Proof. vm_compute. reflexivity. Qed.

Example zigzag_value_at_2 : Qred (CubicSpline.value zigzag 2) = 0.
Proof. vm_compute. reflexivity. Qed.

Example zigzag_value_at_half :
  0 < CubicSpline.value zigzag (1 # 2) < 1.
Proof. split; vm_compute; reflexivity. Qed.

Example clamped_left_slope :
  Qred (CubicSpline.firstDerivative
          (CubicSpline.build [0; 1; 3; 4] [0; 1; 0; 1] 5 (- 7 # 3)) 0) = 5.
Proof. vm_compute. reflexivity. Qed.

(** ** Vectors and the monotonicity loop *)

Lemma last_cons (w : list Real) (a b : Real) :
  last (b :: w) a = last w b.
Proof.
  revert a b. induction w as [|b' w IH]; intros a b; [reflexivity|].
  change (last (b :: b' :: w) a) with (last (b' :: w) a).
  rewrite (IH a b'), (IH b b'). reflexivity.
Qed.

Lemma last_is_nth (w : list Real) (a : Real) :
  last w a = nth (length w) (a :: w) 0.
Proof.
  revert a. induction w as [|b w IH]; intros a; [reflexivity|].
  rewrite last_cons, IH. reflexivity.
Qed.

Lemma not_increasing_at_spec (xs : list Real) (i : nat) :
  SplineParsedMaterial.not_increasing_at xs i = true
  <-> nth i xs 0 <= nth (i - 1) xs 0.
Proof. apply Qle_bool_iff. Qed.

Lemma monotonicity_violated_true (xs : list Real) :
  SplineParsedMaterial.monotonicity_violated xs = true
  <-> exists i, (1 <= i < length xs)%nat /\ nth i xs 0 <= nth (i - 1) xs 0.
Proof.
  unfold SplineParsedMaterial.monotonicity_violated.
  rewrite existsb_exists. split.
  - intros [i [Hin Hi]]. exists i. apply in_seq in Hin.
    apply not_increasing_at_spec in Hi. split; [lia | exact Hi].
  - intros [i [Hin Hi]]. exists i. split.
    + apply in_seq. lia.
    + apply not_increasing_at_spec. exact Hi.
Qed.

Lemma monotonicity_violated_false (xs : list Real) :
  SplineParsedMaterial.monotonicity_violated xs = false
  <-> strictly_increasing xs.
Proof.
  split.
  - intros Hf i Hi. apply Qnot_le_lt. intros Hle.
    assert (Ht : SplineParsedMaterial.monotonicity_violated xs = true)
      by (apply monotonicity_violated_true; exists i; auto).
    congruence.
  - intros Hs.
    destruct (SplineParsedMaterial.monotonicity_violated xs) eqn:E; [|reflexivity].
    apply monotonicity_violated_true in E. destruct E as [i [Hi Hle]].
    exfalso. exact (Qlt_not_le _ _ (Hs i Hi) Hle).
Qed.

Lemma strictly_increasing_lt (xs : list Real) :
  strictly_increasing xs ->
  forall i j, (i < j < length xs)%nat -> nth i xs 0 < nth j xs 0.
Proof.
  intros Hs i j. induction j as [|j IH]; intros Hij; [lia|].
  assert (Hstep : nth j xs 0 < nth (S j) xs 0).
  { specialize (Hs (S j)). replace (S j - 1)%nat with j in Hs by lia.
    apply Hs. lia. }
  destruct (Nat.eq_dec i j) as [->|Hne]; [exact Hstep|].
  apply Qlt_trans with (nth j xs 0); [apply IH; lia | exact Hstep].
Qed.

Lemma strictly_increasing_le (xs : list Real) :
  strictly_increasing xs ->
  forall i j, (i <= j < length xs)%nat -> nth i xs 0 <= nth j xs 0.
Proof.
  intros Hs i j Hij. destruct (Nat.eq_dec i j) as [->|Hne].
  - apply Qle_refl.
  - apply Qlt_le_weak, strictly_increasing_lt; [exact Hs | lia].
Qed.

(** The indices of a strictly increasing vector are ordered like its
    entries. *)
Lemma strictly_increasing_index_le (xs : list Real) :
  strictly_increasing xs ->
  forall i j, (i < length xs)%nat -> (j < length xs)%nat ->
  nth i xs 0 <= nth j xs 0 -> (i <= j)%nat.
Proof.
  intros Hs i j Hi Hj Hle.
  destruct (le_lt_dec i j) as [Hij|Hji]; [exact Hij|].
  exfalso. apply (Qlt_not_le _ _ (strictly_increasing_lt xs Hs j i (conj Hji Hi))).
  exact Hle.
Qed.

(** ** The constructor *)

Section Constructor.

Context {T : Type} `{SplineInterpolation T}.

Local Abbreviation construct := (@SplineParsedMaterial.SplineParsedMaterial T _).

Lemma construct_empty (p : InputParameters) :
  x p = [] -> construct p = UndefinedBehaviour.
Proof.
  intros Hx. unfold SplineParsedMaterial.SplineParsedMaterial.
  rewrite Hx. reflexivity.
Qed.

Lemma construct_length_mismatch (p : InputParameters) :
  x p <> [] -> length (x p) <> length (y p) -> construct p = LengthMismatch.
Proof.
  intros Hx Hlen. unfold SplineParsedMaterial.SplineParsedMaterial.
  destruct (x p) as [|a w] eqn:Ex; [congruence|]. cbn [front back].
  destruct (Nat.eqb_spec (length (a :: w)) (length (y p))); [contradiction|].
  reflexivity.
Qed.

Lemma construct_single_point (p : InputParameters) :
  length (x p) = 1%nat -> length (y p) = 1%nat ->
  construct p = InsufficientPoints.
Proof.
  intros Hx Hy. unfold SplineParsedMaterial.SplineParsedMaterial.
  destruct (x p) as [|a w] eqn:Ex; [discriminate|]. cbn [front back].
  rewrite Hx, Hy. reflexivity.
Qed.

Lemma construct_not_increasing (p : InputParameters) :
  length (y p) = length (x p) ->
  (exists i, (1 <= i < length (x p))%nat
             /\ nth i (x p) 0 <= nth (i - 1) (x p) 0) ->
  construct p = NotStrictlyIncreasing.
Proof.
  intros Hlen Hex.
  assert (Hv : SplineParsedMaterial.monotonicity_violated (x p) = true)
    by (apply monotonicity_violated_true; exact Hex).
  destruct Hex as [i [Hi _]].
  unfold SplineParsedMaterial.SplineParsedMaterial.
  destruct (x p) as [|a w] eqn:Ex; [simpl in Hi; lia|]. cbn [front back].
  rewrite Hlen, Nat.eqb_refl. cbn [negb].
  destruct (Nat.ltb_spec (length (a :: w)) 2); [lia|].
  rewrite Hv. reflexivity.
Qed.

(** What a successful construction tells about its input and its result. *)
Lemma constructed_inv (p : InputParameters) (m : SplineParsedMaterial.t)
    (log : list Notification) :
  construct p = Constructed m log ->
  length (x p) = length (y p)
  /\ (2 <= length (x p))%nat
  /\ strictly_increasing (x p)
  /\ SplineParsedMaterial._spline m = setData (x p) (y p) (yp1 p) (ypn p)
  /\ SplineParsedMaterial._x_values m = x p
  /\ SplineParsedMaterial._y_values m = y p
  /\ SplineParsedMaterial._x_min m = nth 0 (x p) 0
  /\ SplineParsedMaterial._x_max m = nth (length (x p) - 1) (x p) 0.
Proof.
  unfold SplineParsedMaterial.SplineParsedMaterial.
  destruct (x p) as [|a w] eqn:Ex; [discriminate|]. cbn [front back].
  destruct (Nat.eqb_spec (length (a :: w)) (length (y p))) as [Hlen|];
    [cbn [negb]|discriminate].
  destruct (Nat.ltb_spec (length (a :: w)) 2) as [|Hn]; [discriminate|].
  destruct (SplineParsedMaterial.monotonicity_violated (a :: w)) eqn:Hv;
    [discriminate|].
  intros Hc. injection Hc as <- _. cbn.
  repeat split; try assumption; try reflexivity.
  - apply monotonicity_violated_false. exact Hv.
  - rewrite Nat.sub_0_r. apply last_is_nth.
Qed.

Lemma construct_valid (p : InputParameters) :
  length (x p) = length (y p) -> (2 <= length (x p))%nat ->
  strictly_increasing (x p) ->
  exists m log, construct p = Constructed m log.
Proof.
  intros Hlen Hn Hs. apply monotonicity_violated_false in Hs.
  unfold SplineParsedMaterial.SplineParsedMaterial.
  destruct (x p) as [|a w] eqn:Ex; [simpl in Hn; lia|]. cbn [front back].
  rewrite <- Hlen, Nat.eqb_refl. cbn [negb].
  destruct (Nat.ltb_spec (length (a :: w)) 2); [lia|].
  rewrite Hs. eauto.
Qed.

(** The domain of a constructed object is a proper interval. *)
Lemma constructed_domain (p : InputParameters) (m : SplineParsedMaterial.t)
    (log : list Notification) :
  construct p = Constructed m log ->
  SplineParsedMaterial._x_min m < SplineParsedMaterial._x_max m.
Proof.
  intros Hc. apply constructed_inv in Hc.
  destruct Hc as (_ & Hn & Hs & _ & _ & _ & -> & ->).
  apply strictly_increasing_lt; [exact Hs | lia].
Qed.

End Constructor.

(** ** Clamping *)

Section Queries.

Context {T : Type} `{SplineInterpolation T}.

Local Abbreviation construct := (@SplineParsedMaterial.SplineParsedMaterial T _).
Local Abbreviation t := (@SplineParsedMaterial.t T).
Local Abbreviation x_min := SplineParsedMaterial._x_min.
Local Abbreviation x_max := SplineParsedMaterial._x_max.
Local Abbreviation clampToDomain := SplineParsedMaterial.clampToDomain.
Local Abbreviation outside := SplineParsedMaterial.outside.
Local Abbreviation computeValue := SplineParsedMaterial.computeValue.
Local Abbreviation computeDerivative := SplineParsedMaterial.computeDerivative.

Lemma clamp_below (m : t) (c : Real) :
  c < x_min m -> clampToDomain m c = x_min m.
Proof.
  intros Hc. apply Qltb_lt in Hc.
  unfold SplineParsedMaterial.clampToDomain, std_max, std_min.
  rewrite Hc. cbn [orb].
  destruct (Qltb c (x_max m)) eqn:E1.
  - rewrite (Qltb_asym _ _ Hc). reflexivity.
  - destruct (Qltb (x_min m) (x_max m)) eqn:E2; [|reflexivity].
    rewrite (Qltb_trans _ _ _ Hc E2) in E1. discriminate.
Qed.

Lemma clamp_above (m : t) (c : Real) :
  x_min m < x_max m -> x_max m < c -> clampToDomain m c = x_max m.
Proof.
  intros Hd Hc. apply Qltb_lt in Hd, Hc.
  unfold SplineParsedMaterial.clampToDomain, std_max, std_min.
  rewrite Hc, orb_true_r, (Qltb_asym _ _ Hc), Hd. reflexivity.
Qed.

Lemma clamp_inside (m : t) (c : Real) :
  x_min m <= c <= x_max m -> clampToDomain m c = c.
Proof.
  intros [Hlo Hhi]. unfold SplineParsedMaterial.clampToDomain.
  apply Qle_not_lt, Qltb_nlt in Hlo. apply Qle_not_lt, Qltb_nlt in Hhi.
  rewrite Hlo, Hhi. reflexivity.
Qed.

Lemma clamp_in_domain (m : t) (c : Real) :
  x_min m < x_max m -> x_min m <= clampToDomain m c <= x_max m.
Proof.
  intros Hd.
  destruct (Qlt_le_dec c (x_min m)) as [Hlo|Hlo].
  - rewrite clamp_below by exact Hlo.
    split; [apply Qle_refl | apply Qlt_le_weak, Hd].
  - destruct (Qlt_le_dec (x_max m) c) as [Hhi|Hhi].
    + rewrite clamp_above by assumption.
      split; [apply Qlt_le_weak, Hd | apply Qle_refl].
    + rewrite clamp_inside by (split; assumption). split; assumption.
Qed.

(** ** What the queries compute *)

Lemma computeValue_value (m : t) (c : Real) (h : Host) :
  evalState (computeValue m c) h
  = sample (SplineParsedMaterial._spline m) (clampToDomain m c).
Proof.
  unfold SplineParsedMaterial.computeValue, SplineParsedMaterial.clampToDomain, evalState.
  destruct (Qltb c (x_min m) || Qltb (x_max m) c); cbn; [|reflexivity].
  destruct (negb (warned h) && (t_step h =? 0)%Z); reflexivity.
Qed.

Lemma computeValue_state (m : t) (c : Real) (h : Host) :
  execState (computeValue m c) h
  = if outside m c && negb (warned h) && (t_step h =? 0)%Z
    then {| warned := true; t_step := t_step h;
            notifications :=
              notifications h ++ [WarnOutsideDomain c (x_min m) (x_max m)] |}
    else h.
Proof.
  unfold SplineParsedMaterial.computeValue, SplineParsedMaterial.outside, execState.
  destruct (Qltb c (x_min m) || Qltb (x_max m) c); cbn; [|reflexivity].
  destruct (negb (warned h) && (t_step h =? 0)%Z); reflexivity.
Qed.

Lemma computeDerivative_value (m : t) (c : Real) (order : N) (h : Host) :
  evalState (computeDerivative m c order) h
  = match order with
    | 0%N => sample (SplineParsedMaterial._spline m) (clampToDomain m c)
    | 1%N => sampleDerivative (SplineParsedMaterial._spline m) (clampToDomain m c)
    | 2%N => sample2ndDerivative (SplineParsedMaterial._spline m) (clampToDomain m c)
    | _ => 0
    end.
Proof.
  unfold SplineParsedMaterial.computeDerivative.
  destruct order as [|[q|q|]]; try reflexivity; destruct q; reflexivity.
Qed.

Lemma computeDerivative_state (m : t) (c : Real) (order : N) (h : Host) :
  execState (computeDerivative m c order) h = h.
Proof.
  unfold SplineParsedMaterial.computeDerivative.
  destruct order as [|[q|q|]]; try reflexivity; destruct q; reflexivity.
Qed.

End Queries.

(** ** The engine: interval location and knot values *)

Section Engine.

Variable xs : list Real.
Variable c : Real.

Lemma div2_between (klo khi : nat) :
  (1 < khi - klo)%nat ->
  (klo < Nat.div2 (khi + klo) < khi)%nat.
Proof.
  intros Hgap. rewrite Nat.div2_div.
  pose proof (Nat.div_mod_eq (khi + klo) 2) as Hd.
  pose proof (Nat.mod_upper_bound (khi + klo) 2 ltac:(lia)) as Hm.
  lia.
Qed.

(** The loop invariant of the bisection: the bracket stays inside the
    vector, its left knot is not above [c], and its right knot is above
    [c] unless it is still the last knot.  The fuel suffices to close the
    bracket. *)
Lemma bisect_bracket (fuel klo khi : nat) :
  (klo < khi < length xs)%nat ->
  (khi - klo <= fuel + 1)%nat ->
  nth klo xs 0 <= c ->
  (c < nth khi xs 0 \/ khi = (length xs - 1)%nat) ->
  let '(lo, hi) := CubicSpline.bisect fuel xs c klo khi in
  hi = S lo /\ (hi < length xs)%nat /\ nth lo xs 0 <= c
  /\ (c < nth hi xs 0 \/ hi = (length xs - 1)%nat).
Proof.
  revert klo khi. induction fuel as [|fuel IH]; intros klo khi Hb Hf Hlo Hhi.
  - cbn. repeat split; try assumption; lia.
  - cbn [CubicSpline.bisect].
    destruct (Nat.ltb_spec 1 (khi - klo)) as [Hgap|Hgap].
    + pose proof (div2_between klo khi Hgap) as Hk.
      destruct (Qltb c (nth (Nat.div2 (khi + klo)) xs 0)) eqn:E.
      * apply IH; [lia | lia | exact Hlo | left; apply Qltb_lt; exact E].
      * apply IH; [lia | lia | | exact Hhi].
        apply Qnot_lt_le. apply Qltb_nlt. exact E.
    + repeat split; try assumption; lia.
Qed.

Lemma findInterval_bracket :
  (2 <= length xs)%nat -> nth 0 xs 0 <= c ->
  let '(lo, hi) := CubicSpline.findInterval xs c in
  hi = S lo /\ (hi < length xs)%nat /\ nth lo xs 0 <= c
  /\ (c < nth hi xs 0 \/ hi = (length xs - 1)%nat).
Proof.
  intros Hn H0. unfold CubicSpline.findInterval.
  apply bisect_bracket; [lia | lia | exact H0 | right; reflexivity].
Qed.

End Engine.

(** At a knot the bracket found has that knot as one of its ends. *)
Lemma findInterval_at_knot (xs : list Real) (i : nat) :
  strictly_increasing xs -> (2 <= length xs)%nat -> (i < length xs)%nat ->
  let '(lo, hi) := CubicSpline.findInterval xs (nth i xs 0) in
  hi = S lo /\ (hi < length xs)%nat /\ (i = lo \/ i = hi).
Proof.
  intros Hs Hn Hi.
  pose proof (findInterval_bracket xs (nth i xs 0) Hn
                (strictly_increasing_le xs Hs 0%nat i ltac:(lia))) as Hb.
  destruct (CubicSpline.findInterval xs (nth i xs 0)) as [lo hi].
  destruct Hb as (Hhi & Hlt & Hlo & Hup).
  repeat split; try assumption.
  assert (lo <= i)%nat
    by (apply (strictly_increasing_index_le xs Hs); [lia | lia | exact Hlo]).
  destruct Hup as [Hup|Hlast]; [|lia].
  assert (i < hi)%nat; [|lia].
  destruct (le_lt_dec hi i) as [Hle|]; [|assumption].
  exfalso. apply (Qlt_not_le _ _ Hup).
  apply strictly_increasing_le; [exact Hs | lia].
Qed.

Lemma value_formula_left (x_lo x_hi y_lo y_hi y2_lo y2_hi : Real) :
  ~ x_hi - x_lo == 0 ->
  CubicSpline.value_formula (x_hi - x_lo)
    ((x_hi - x_lo) / (x_hi - x_lo)) ((x_lo - x_lo) / (x_hi - x_lo))
    y_lo y_hi y2_lo y2_hi == y_lo.
Proof.
  intros Hh. unfold CubicSpline.value_formula. field. exact Hh.
Qed.

Lemma value_formula_right (x_lo x_hi y_lo y_hi y2_lo y2_hi : Real) :
  ~ x_hi - x_lo == 0 ->
  CubicSpline.value_formula (x_hi - x_lo)
    ((x_hi - x_hi) / (x_hi - x_lo)) ((x_hi - x_lo) / (x_hi - x_lo))
    y_lo y_hi y2_lo y2_hi == y_hi.
Proof.
  intros Hh. unfold CubicSpline.value_formula. field. exact Hh.
Qed.

(** The engine returns the tabulated value at every knot, whatever the
    second derivatives are. *)
Lemma value_at_knot (d : CubicSpline.SplineData) (i : nat) :
  strictly_increasing (CubicSpline.knots d) ->
  (2 <= length (CubicSpline.knots d))%nat ->
  (i < length (CubicSpline.knots d))%nat ->
  CubicSpline.value d (nth i (CubicSpline.knots d) 0)
  == nth i (CubicSpline.values d) 0.
Proof.
  intros Hs Hn Hi.
  pose proof (findInterval_at_knot _ i Hs Hn Hi) as Hb.
  unfold CubicSpline.value, CubicSpline.on_interval.
  destruct (CubicSpline.findInterval (CubicSpline.knots d)
              (nth i (CubicSpline.knots d) 0)) as [lo hi].
  destruct Hb as (Hhi & Hlt & Hend).
  assert (Hh : ~ nth hi (CubicSpline.knots d) 0
                 - nth lo (CubicSpline.knots d) 0 == 0).
  { apply Qminus_neq. apply strictly_increasing_lt; [exact Hs | lia]. }
  destruct Hend as [->| ->].
  - apply value_formula_left. exact Hh.
  - apply value_formula_right. exact Hh.
Qed.

(** * Properties of the queries and of the constructor *)

Section Claims.

Context {T : Type} `{SplineInterpolation T}.

Local Abbreviation construct := (@SplineParsedMaterial.SplineParsedMaterial T _).
Local Abbreviation t := (@SplineParsedMaterial.t T).
Local Abbreviation spline := SplineParsedMaterial._spline.
Local Abbreviation x_min := SplineParsedMaterial._x_min.
Local Abbreviation x_max := SplineParsedMaterial._x_max.
Local Abbreviation clampToDomain := SplineParsedMaterial.clampToDomain.
Local Abbreviation outside := SplineParsedMaterial.outside.
Local Abbreviation splineData := SplineParsedMaterial.splineData.
Local Abbreviation computeValue := SplineParsedMaterial.computeValue.
Local Abbreviation computeDerivative := SplineParsedMaterial.computeDerivative.

(** C1.  For a constructed spline, a query below [domain_min] gives what
    the query at [domain_min] gives and a query above [domain_max] what
    the query at [domain_max] gives, for the value and for every
    derivative order; every query samples the spline at the clamped
    coordinate, which lies inside the domain, so nothing is ever
    extrapolated. *)
Theorem out_of_domain_queries_clamp
    (p : InputParameters) (m : t) (log : list Notification) (c : Real) :
  construct p = Constructed m log ->
  (c < x_min m ->
     (forall h h', evalState (computeValue m c) h
                   = evalState (computeValue m (x_min m)) h')
     /\ (forall order h h', evalState (computeDerivative m c order) h
                       = evalState (computeDerivative m (x_min m) order) h'))
  /\ (x_max m < c ->
     (forall h h', evalState (computeValue m c) h
                   = evalState (computeValue m (x_max m)) h')
     /\ (forall order h h', evalState (computeDerivative m c order) h
                       = evalState (computeDerivative m (x_max m) order) h'))
  /\ (x_min m <= clampToDomain m c <= x_max m
      /\ (forall h, evalState (computeValue m c) h
                    = sample (spline m) (clampToDomain m c))
      /\ (forall h, evalState (computeDerivative m c 1) h
                    = sampleDerivative (spline m) (clampToDomain m c))
      /\ (forall h, evalState (computeDerivative m c 2) h
                    = sample2ndDerivative (spline m) (clampToDomain m c))).
Proof.
  intros Hc. pose proof (constructed_domain p m log Hc) as Hd.
  assert (Hmin : clampToDomain m (x_min m) = x_min m)
    by (apply clamp_inside; split; [apply Qle_refl | apply Qlt_le_weak, Hd]).
  assert (Hmax : clampToDomain m (x_max m) = x_max m)
    by (apply clamp_inside; split; [apply Qlt_le_weak, Hd | apply Qle_refl]).
  split; [|split].
  - intros Hlo. pose proof (clamp_below m c Hlo) as Hcl. split.
    + intros h h'. rewrite !computeValue_value, Hcl, Hmin. reflexivity.
    + intros order h h'. rewrite !computeDerivative_value, Hcl, Hmin.
      reflexivity.
  - intros Hhi. pose proof (clamp_above m c Hd Hhi) as Hcl. split.
    + intros h h'. rewrite !computeValue_value, Hcl, Hmax. reflexivity.
    + intros order h h'. rewrite !computeDerivative_value, Hcl, Hmax.
      reflexivity.
  - split; [apply clamp_in_domain, Hd|].
    split; [intros h; apply computeValue_value|].
    split; intros h; reflexivity.
Qed.

(** C3, as amended.  At an out-of-domain coordinate a derivative query of
    any order leaves the host state alone and notifies nothing, and
    [computeValue] returns the clamped sample in every host state.  The
    value query leaves the state alone and notifies nothing when the
    [warned] flag is set or the time step is not [0]; otherwise it emits
    exactly one out-of-domain warning and sets the flag, after which no
    further value query changes anything. *)
Theorem out_of_domain_value_query_effects (m : t) (c : Real) (h : Host) :
  outside m c = true ->
  (forall order, execState (computeDerivative m c order) h = h)
  /\ evalState (computeValue m c) h = sample (spline m) (clampToDomain m c)
  /\ (warned h = true \/ t_step h <> 0%Z ->
      execState (computeValue m c) h = h)
  /\ (warned h = false -> t_step h = 0%Z ->
      execState (computeValue m c) h
      = {| warned := true; t_step := 0;
           notifications :=
             notifications h ++ [WarnOutsideDomain c (x_min m) (x_max m)] |})
  /\ (forall c', execState (computeValue m c') (execState (computeValue m c) h)
                 = execState (computeValue m c) h).
Proof.
  intros Hout. split; [intros order; apply computeDerivative_state|].
  split; [apply computeValue_value|].
  split; [|split].
  - intros Hq. rewrite computeValue_state, Hout. cbn [andb].
    destruct Hq as [-> | Hq]; [reflexivity|].
    destruct (Z.eqb_spec (t_step h) 0); [contradiction|].
    rewrite andb_false_r. reflexivity.
  - intros Hw Ht. rewrite computeValue_state, Hout, Hw, Ht. reflexivity.
  - intros c'. rewrite (computeValue_state m c h), Hout. cbn [andb].
    destruct (negb (warned h) && (t_step h =? 0)%Z) eqn:E.
    + rewrite computeValue_state. cbn [warned negb andb].
      rewrite andb_false_r. reflexivity.
    + rewrite computeValue_state, <- andb_assoc, E, andb_false_r. reflexivity.
Qed.

(** C4.  A derivative query of order 3 or more returns exactly [0], at
    every coordinate and in every host state. *)
Theorem derivative_order_ge_3_is_zero
    (m : t) (c : Real) (order : N) (h : Host) :
  (3 <= order)%N -> evalState (computeDerivative m c order) h = 0.
Proof.
  intros Ho. unfold SplineParsedMaterial.computeDerivative.
  destruct order as [|[q|q|]]; try lia; try reflexivity.
  destruct q; try reflexivity; lia.
Qed.

(** Where the operations are defined they are deterministic: the result
    of a query depends on the spline data, the coordinate and the order
    only, not on the host state or on anything else the object holds;
    and of two constructions from the same [x], [y], [yp1] and [ypn],
    if one succeeds the other succeeds with the same spline data, and if
    one fails with an error the other fails with the same error. *)
Theorem operations_deterministic :
  (forall (m1 m2 : t) (c : Real) (order : N) (h1 h2 : Host),
     splineData m1 = splineData m2 ->
     evalState (computeValue m1 c) h1 = evalState (computeValue m2 c) h2
     /\ evalState (computeDerivative m1 c order) h1
        = evalState (computeDerivative m2 c order) h2)
  /\ (forall p1 p2 : InputParameters,
        x p1 = x p2 -> y p1 = y p2 -> yp1 p1 = yp1 p2 -> ypn p1 = ypn p2 ->
        (forall m1 log1, construct p1 = Constructed m1 log1 ->
           exists m2 log2, construct p2 = Constructed m2 log2
                           /\ splineData m2 = splineData m1)
        /\ (forall param msg, construct p1 = ParamError param msg ->
              construct p2 = ParamError param msg)).
Proof.
  split.
  - intros m1 m2 c order h1 h2 Hd.
    unfold SplineParsedMaterial.splineData in Hd.
    injection Hd as Hs Hx Hy Hlo Hhi.
    rewrite !computeValue_value, !computeDerivative_value.
    unfold SplineParsedMaterial.clampToDomain.
    rewrite Hs, Hlo, Hhi. split; reflexivity.
  - intros p1 p2 Hx Hy H1 Hn.
    unfold SplineParsedMaterial.SplineParsedMaterial.
    rewrite <- Hx, <- Hy, <- H1, <- Hn.
    destruct (front (x p1)), (back (x p1)); try (split; intros; discriminate).
    destruct (negb (length (x p1) =? length (y p1))%nat);
      [split; intros; [discriminate | assumption]|].
    destruct (length (x p1) <? 2)%nat;
      [split; intros; [discriminate | assumption]|].
    destruct (SplineParsedMaterial.monotonicity_violated (x p1));
      [split; intros; [discriminate | assumption]|].
    split; [|intros; discriminate].
    intros m1 log1 Hc. injection Hc as <- _.
    eexists. eexists. split; reflexivity.
Qed.

(** C9.  The constructor takes [front()] and [back()] of [x] before any
    validation: on an empty [x] it has no defined behaviour whatever [y]
    is, so the [InsufficientPoints] error arises exactly when [x] (and
    [y]) hold a single point; on success the cached bounds are the first
    and last knot. *)
Theorem bounds_read_before_validation :
  (forall p : InputParameters, x p = [] -> construct p = UndefinedBehaviour)
  /\ (forall p : InputParameters,
        construct p = InsufficientPoints
        <-> length (x p) = 1%nat /\ length (y p) = 1%nat)
  /\ (forall p m log, construct p = Constructed m log ->
        front (x p) = Some (x_min m) /\ back (x p) = Some (x_max m)).
Proof.
  split; [exact construct_empty|]. split.
  - intros p. split; [|intros [Hx Hy]; apply construct_single_point; assumption].
    unfold SplineParsedMaterial.SplineParsedMaterial, InsufficientPoints.
    destruct (x p) as [|a w]; [discriminate|]. cbn [front back].
    destruct (Nat.eqb_spec (length (a :: w)) (length (y p))) as [Hlen|];
      [cbn [negb]|discriminate].
    destruct (Nat.ltb_spec (length (a :: w)) 2) as [Hn|].
    + intros _. simpl in *. lia.
    + destruct (SplineParsedMaterial.monotonicity_violated (a :: w));
        discriminate.
  - intros p m log.
    unfold SplineParsedMaterial.SplineParsedMaterial.
    destruct (front (x p)), (back (x p)); try discriminate.
    destruct (negb (length (x p) =? length (y p))%nat); [discriminate|].
    destruct (length (x p) <? 2)%nat; [discriminate|].
    destruct (SplineParsedMaterial.monotonicity_violated (x p)); [discriminate|].
    intros Hc. injection Hc as <- _. split; reflexivity.
Qed.

(** C10.  The derivative query of order [0] returns what the value query
    returns, at every coordinate and in every host state. *)
Theorem derivative_order_0_is_value (m : t) (c : Real) (h h' : Host) :
  evalState (computeDerivative m c 0) h = evalState (computeValue m c) h'.
Proof.
  rewrite computeValue_value, computeDerivative_value. reflexivity.
Qed.

(** C6, as amended.  With [y] as long as [x] and [x] holding exactly one
    point, construction fails with [InsufficientPoints]. *)
Theorem single_point_is_insufficient (p : InputParameters) :
  (1 <= length (x p) < 2)%nat -> length (y p) = length (x p) ->
  construct p = InsufficientPoints.
Proof.
  intros Hx Hy. apply construct_single_point; lia.
Qed.

(** C7, as amended.  With [y] as long as [x], an [x] with some
    [x[i] <= x[i-1]] makes construction fail with
    [NotStrictlyIncreasing]; no object is built from it. *)
Theorem unordered_knots_are_rejected (p : InputParameters) :
  length (y p) = length (x p) ->
  (exists i, (1 <= i < length (x p))%nat
             /\ nth i (x p) 0 <= nth (i - 1) (x p) 0) ->
  construct p = NotStrictlyIncreasing.
Proof. apply construct_not_increasing. Qed.

End Claims.

(** ** Properties on the cubic engine and on concrete inputs *)

(** C2.  From equally long [x] and [y] with at least two strictly
    increasing knots the construction succeeds, and the value query at
    every knot [x[i]] returns [y[i]] (an equality of exact reals, hence up
    to rounding in the program). *)
Theorem valid_input_interpolates_knots (p : InputParameters) :
  length (x p) = length (y p) -> (2 <= length (x p))%nat ->
  strictly_increasing (x p) ->
  exists (m : @SplineParsedMaterial.t CubicSpline.SplineData) log,
    SplineParsedMaterial.SplineParsedMaterial p = Constructed m log
    /\ forall i h, (i < length (x p))%nat ->
         evalState (SplineParsedMaterial.computeValue m (nth i (x p) 0)) h
         == nth i (y p) 0.
Proof.
  intros Hlen Hn Hs.
  destruct (construct_valid p Hlen Hn Hs) as (m & log & Hc).
  exists m, log. split; [exact Hc|].
  intros i h Hi.
  destruct (constructed_inv p m log Hc)
    as (_ & _ & _ & Hsp & _ & _ & Hlo & Hhi).
  rewrite computeValue_value, clamp_inside.
  - rewrite Hsp. apply (value_at_knot (CubicSpline.build _ _ _ _) i); assumption.
  - rewrite Hlo, Hhi.
    split; apply strictly_increasing_le; try assumption; lia.
Qed.

Lemma valid_input_interpolates_knots_witness :
  (length [0; 1; 2; 3; 4] = length [0; 1; 0; 1; 0]
   /\ (2 <= length [0; 1; 2; 3; 4])%nat
   /\ strictly_increasing [0; 1; 2; 3; 4])
  /\ exists (m : @SplineParsedMaterial.t CubicSpline.SplineData) log,
       SplineParsedMaterial.SplineParsedMaterial
         (params_of [0; 1; 2; 3; 4] [0; 1; 0; 1; 0]) = Constructed m log
       /\ forall i h, (i < 5)%nat ->
            evalState (SplineParsedMaterial.computeValue m
                         (nth i [0; 1; 2; 3; 4] 0)) h
            == nth i [0; 1; 0; 1; 0] 0.
Proof.
  assert (Hs : strictly_increasing [0; 1; 2; 3; 4])
    by (apply monotonicity_violated_false; reflexivity).
  split.
  - split; [reflexivity|]. split; [simpl; lia | exact Hs].
  - apply (valid_input_interpolates_knots
             (params_of [0; 1; 2; 3; 4] [0; 1; 0; 1; 0]));
      [reflexivity | simpl; lia | exact Hs].
Defined.

Lemma out_of_domain_queries_clamp_witness :
  (SplineParsedMaterial.SplineParsedMaterial
     (params_of [0; 1; 2; 3; 4] [0; 1; 0; 1; 0])
   = Constructed zigzag_material []
   /\ - (1) < 0 /\ 4 < 5)
  /\ ((forall h h',
         evalState (SplineParsedMaterial.computeValue zigzag_material (- (1))) h
         = evalState (SplineParsedMaterial.computeValue zigzag_material 0) h')
      /\ (forall order h h',
            evalState (SplineParsedMaterial.computeDerivative zigzag_material
                         (- (1)) order) h
            = evalState (SplineParsedMaterial.computeDerivative zigzag_material
                           0 order) h'))
  /\ ((forall h h',
         evalState (SplineParsedMaterial.computeValue zigzag_material 5) h
         = evalState (SplineParsedMaterial.computeValue zigzag_material 4) h')
      /\ (forall order h h',
            evalState (SplineParsedMaterial.computeDerivative zigzag_material
                         5 order) h
            = evalState (SplineParsedMaterial.computeDerivative zigzag_material
                           4 order) h')).
Proof.
  split; [split; [reflexivity | split; reflexivity]|].
  split.
  - exact (proj1 (out_of_domain_queries_clamp
                    (params_of [0; 1; 2; 3; 4] [0; 1; 0; 1; 0])
                    zigzag_material [] (- (1)) eq_refl) eq_refl).
  - exact (proj1 (proj2 (out_of_domain_queries_clamp
                           (params_of [0; 1; 2; 3; 4] [0; 1; 0; 1; 0])
                           zigzag_material [] 5 eq_refl)) eq_refl).
Defined.

(** C3, as stated, fails: the first out-of-domain value query during time
    step [0] sets the [warned] flag and emits a warning. *)
Lemma out_of_domain_value_query_warns :
  ~ (forall (p : InputParameters)
            (m : @SplineParsedMaterial.t CubicSpline.SplineData) log c h,
       SplineParsedMaterial.SplineParsedMaterial p = Constructed m log ->
       SplineParsedMaterial.outside m c = true ->
       execState (SplineParsedMaterial.computeValue m c) h = h).
Proof.
  intros Hclaim.
  specialize (Hclaim (params_of [0; 1; 2; 3; 4] [0; 1; 0; 1; 0])
                     zigzag_material [] 5 fresh_host eq_refl eq_refl).
  discriminate Hclaim.
Qed.

Lemma out_of_domain_value_query_effects_witness :
  SplineParsedMaterial.outside zigzag_material 5 = true
  /\ execState (SplineParsedMaterial.computeValue zigzag_material 5) fresh_host
     = {| warned := true; t_step := 0;
          notifications := [WarnOutsideDomain 5 0 4] |}
  /\ execState (SplineParsedMaterial.computeValue zigzag_material 5) warned_host
     = warned_host.
Proof.
  split; [reflexivity|].
  destruct (out_of_domain_value_query_effects zigzag_material 5 fresh_host
              eq_refl) as (_ & _ & _ & Hfresh & _).
  destruct (out_of_domain_value_query_effects zigzag_material 5 warned_host
              eq_refl) as (_ & _ & Hquiet & _).
  split; [exact (Hfresh eq_refl eq_refl) | exact (Hquiet (or_introl eq_refl))].
Defined.

Lemma derivative_order_ge_3_is_zero_witness :
  (3 <= 3)%N
  /\ evalState (SplineParsedMaterial.computeDerivative zigzag_material
                  (1 # 2) 3) fresh_host = 0.
Proof.
  split; [discriminate|].
  apply (derivative_order_ge_3_is_zero zigzag_material (1 # 2) 3 fresh_host).
  discriminate.
Defined.

(** C5 at [x = []], [y = [1]]: the lengths differ, yet the constructor has
    taken [front()] of the empty [x] before the length test, so the
    outcome is not the [LengthMismatch] error. *)
Theorem length_mismatch_on_empty_x :
  @SplineParsedMaterial.SplineParsedMaterial CubicSpline.SplineData _
    (params_of [] [1]) = UndefinedBehaviour
  /\ @SplineParsedMaterial.SplineParsedMaterial CubicSpline.SplineData _
       (params_of [] [1]) <> LengthMismatch.
Proof. split; [reflexivity | discriminate]. Qed.

(** On a non-empty [x] the construction has a defined outcome: an object
    or one of the errors. *)
Lemma construction_defined_on_nonempty_x (p : InputParameters) :
  x p <> [] ->
  (exists (m : @SplineParsedMaterial.t CubicSpline.SplineData) log,
     SplineParsedMaterial.SplineParsedMaterial p = Constructed m log)
  \/ (exists param msg,
        @SplineParsedMaterial.SplineParsedMaterial CubicSpline.SplineData _ p
        = ParamError param msg).
Proof.
  intros Hx. unfold SplineParsedMaterial.SplineParsedMaterial.
  destruct (x p) as [|a w]; [contradiction|]. cbn [front back].
  destruct (negb (length (a :: w) =? length (y p))%nat); [right; eauto|].
  destruct (length (a :: w) <? 2)%nat; [right; eauto|].
  destruct (SplineParsedMaterial.monotonicity_violated (a :: w));
    [right; eauto | left; eauto].
Qed.

(** C8 at [x = []], [y = []]: the constructor takes [front()] and
    [back()] of the empty [x] before it validates anything, so the
    construction neither succeeds nor fails with an error, and "every
    construction either succeeds or fails with an error" does not hold
    of the code. *)
Theorem construction_undefined_on_empty_x :
  @SplineParsedMaterial.SplineParsedMaterial CubicSpline.SplineData _
    (params_of [] []) = UndefinedBehaviour
  /\ ~ (exists m log,
         @SplineParsedMaterial.SplineParsedMaterial CubicSpline.SplineData _
           (params_of [] []) = Constructed m log)
  /\ ~ (exists param msg,
         @SplineParsedMaterial.SplineParsedMaterial CubicSpline.SplineData _
           (params_of [] []) = ParamError param msg)
  /\ ~ (forall p : InputParameters,
         (exists m log,
            @SplineParsedMaterial.SplineParsedMaterial CubicSpline.SplineData _
              p = Constructed m log)
         \/ (exists param msg,
               @SplineParsedMaterial.SplineParsedMaterial
                 CubicSpline.SplineData _ p = ParamError param msg)).
Proof.
  split; [reflexivity|]. split; [|split].
  - intros (m & log & E). discriminate E.
  - intros (param & msg & E). discriminate E.
  - intros Hall.
    destruct (Hall (params_of [] [])) as [(m & log & E)|(param & msg & E)];
      discriminate E.
Qed.

(** C6, as stated, fails: a single [x] point with a [y] of another length
    is reported as a length mismatch. *)
Lemma short_x_reported_as_length_mismatch :
  ~ (forall p : InputParameters,
       (length (x p) < 2)%nat ->
       @SplineParsedMaterial.SplineParsedMaterial CubicSpline.SplineData _ p
       = InsufficientPoints).
Proof.
  intros Hclaim.
  specialize (Hclaim (params_of [1] [1; 2]) ltac:(simpl; lia)).
  discriminate Hclaim.
Qed.

Lemma single_point_is_insufficient_witness :
  ((1 <= length [1] < 2)%nat /\ length [1] = length [1])
  /\ @SplineParsedMaterial.SplineParsedMaterial CubicSpline.SplineData _
       (params_of [1] [1]) = InsufficientPoints.
Proof.
  split; [split; [simpl; lia | reflexivity]|].
  apply (single_point_is_insufficient (params_of [1] [1]));
    [simpl; lia | reflexivity].
Defined.

(** C7, as stated, fails: unordered knots with a [y] of another length are
    reported as a length mismatch. *)
Lemma unordered_x_reported_as_length_mismatch :
  ~ (forall p : InputParameters,
       (exists i, (1 <= i < length (x p))%nat
                  /\ nth i (x p) 0 <= nth (i - 1) (x p) 0) ->
       @SplineParsedMaterial.SplineParsedMaterial CubicSpline.SplineData _ p
       = NotStrictlyIncreasing).
Proof.
  intros Hclaim.
  assert (Hex : exists i, (1 <= i < length [1; 3; 2])%nat
                          /\ nth i [1; 3; 2] 0 <= nth (i - 1) [1; 3; 2] 0)
    by (exists 2%nat; split; [simpl; lia | discriminate]).
  specialize (Hclaim (params_of [1; 3; 2] [1; 2]) Hex).
  discriminate Hclaim.
Qed.

Lemma unordered_knots_are_rejected_witness :
  (length [1; 2; 3] = length [1; 3; 2]
   /\ exists i, (1 <= i < length [1; 3; 2])%nat
                /\ nth i [1; 3; 2] 0 <= nth (i - 1) [1; 3; 2] 0)
  /\ @SplineParsedMaterial.SplineParsedMaterial CubicSpline.SplineData _
       (params_of [1; 3; 2] [1; 2; 3]) = NotStrictlyIncreasing.
Proof.
  assert (Hex : exists i, (1 <= i < length [1; 3; 2])%nat
                          /\ nth i [1; 3; 2] 0 <= nth (i - 1) [1; 3; 2] 0)
    by (exists 2%nat; split; [simpl; lia | discriminate]).
  split; [split; [reflexivity | exact Hex]|].
  apply (unordered_knots_are_rejected (params_of [1; 3; 2] [1; 2; 3]));
    [reflexivity | exact Hex].
Defined.

Lemma operations_deterministic_witness :
  (SplineParsedMaterial.splineData zigzag_material
   = SplineParsedMaterial.splineData relabelled_material
   /\ x relabelled_params = x (params_of [0; 1; 2; 3; 4] [0; 1; 0; 1; 0])
   /\ SplineParsedMaterial.SplineParsedMaterial relabelled_params
      = Constructed relabelled_material [WarnVariableMismatch "eta" "c"])
  /\ (evalState (SplineParsedMaterial.computeValue zigzag_material 5) fresh_host
      = evalState (SplineParsedMaterial.computeValue relabelled_material 5)
          warned_host
      /\ evalState (SplineParsedMaterial.computeDerivative zigzag_material 5 1)
           fresh_host
         = evalState (SplineParsedMaterial.computeDerivative
                        relabelled_material 5 1) warned_host)
  /\ exists m2 log2,
       SplineParsedMaterial.SplineParsedMaterial
         (params_of [0; 1; 2; 3; 4] [0; 1; 0; 1; 0]) = Constructed m2 log2
       /\ SplineParsedMaterial.splineData m2
          = SplineParsedMaterial.splineData relabelled_material.
Proof.
  split; [split; [reflexivity | split; reflexivity]|].
  split.
  - exact (proj1 operations_deterministic zigzag_material relabelled_material
             5 1%N fresh_host warned_host eq_refl).
  - exact (proj1 (proj2 operations_deterministic relabelled_params
                    (params_of [0; 1; 2; 3; 4] [0; 1; 0; 1; 0])
                    eq_refl eq_refl eq_refl eq_refl)
             relabelled_material [WarnVariableMismatch "eta" "c"] eq_refl).
Defined.

Lemma bounds_read_before_validation_witness :
  x (params_of [] [1]) = []
  /\ @SplineParsedMaterial.SplineParsedMaterial CubicSpline.SplineData _
       (params_of [] [1]) = UndefinedBehaviour
  /\ @SplineParsedMaterial.SplineParsedMaterial CubicSpline.SplineData _
       (params_of [1] [1]) = InsufficientPoints.
Proof.
  split; [reflexivity|]. split.
  - exact (proj1 bounds_read_before_validation (params_of [] [1]) eq_refl).
  - apply (proj1 (proj2 bounds_read_before_validation) (params_of [1] [1])).
    split; reflexivity.
Defined.


(** * The loop body and sequences of queries *)

(** ** Storage *)

Lemma assign_length (v : list Real) (i : nat) (a : Real) :
  length (assign v i a) = length v.
Proof.
  revert i. induction v as [|b w IH]; intros [|j]; cbn; auto.
Qed.

Lemma assign_nth (v : list Real) (i j : nat) (a : Real) :
  (i < length v)%nat ->
  nth j (assign v i a) 0 = if (j =? i)%nat then a else nth j v 0.
Proof.
  revert i j. induction v as [|b w IH]; intros i j Hi; [simpl in Hi; lia|].
  destruct i as [|i], j as [|j]; cbn; try reflexivity.
  apply IH. simpl in Hi. lia.
Qed.

(** ** Running the primitives *)

Lemma run_bind {A B : Type} (a : Qp A) (f : A -> Qp B) (s : Assembly) :
  runStateT (bind a f) s
  = match runStateT a s with
    | Some (v, s') => runStateT (f v) s'
    | None => None
    end.
Proof.
  cbn. destruct (runStateT a s) as [[v s']|]; reflexivity.
Qed.

Lemma run_ret {A : Type} (a : A) (s : Assembly) :
  runStateT (ret a : Qp A) s = Some (a, s).
Proof. reflexivity. Qed.

Lemma run_call {A : Type} (q : state Host A) (s : Assembly) :
  runStateT (call q) s
  = Some (evalState q (host s), with_host (execState q (host s)) s).
Proof.
  unfold call, evalState, execState. cbn.
  destruct (runState q (host s)); reflexivity.
Qed.

Lemma state_bind_exec {A B : Type} (a : state Host A) (f : A -> state Host B)
    (h : Host) :
  execState (bind a f) h = execState (f (evalState a h)) (execState a h).
Proof.
  unfold execState, evalState. cbn. destruct (runState a h). reflexivity.
Qed.

Lemma state_bind_eval {A B : Type} (a : state Host A) (f : A -> state Host B)
    (h : Host) :
  evalState (bind a f) h = evalState (f (evalState a h)) (execState a h).
Proof.
  unfold execState, evalState. cbn. destruct (runState a h). reflexivity.
Qed.

Section LoopBody.

Context {T : Type} `{SplineInterpolation T}.

Local Abbreviation t := (@SplineParsedMaterial.t T).
Local Abbreviation spline := SplineParsedMaterial._spline.
Local Abbreviation x_min := SplineParsedMaterial._x_min.
Local Abbreviation x_max := SplineParsedMaterial._x_max.
Local Abbreviation clampToDomain := SplineParsedMaterial.clampToDomain.
Local Abbreviation outside := SplineParsedMaterial.outside.
Local Abbreviation computeValue := SplineParsedMaterial.computeValue.
Local Abbreviation computeDerivative := SplineParsedMaterial.computeDerivative.
Local Abbreviation computeValues := QpProperties.computeValues.

(** ** Sequences of value queries *)

Lemma computeValues_cons_exec (m : t) (c : Real) (cs : list Real) (h : Host) :
  execState (computeValues m (c :: cs)) h
  = execState (computeValues m cs) (execState (computeValue m c) h).
Proof.
  cbn [QpProperties.computeValues].
  rewrite state_bind_exec, state_bind_exec. reflexivity.
Qed.

Lemma computeValues_cons_eval (m : t) (c : Real) (cs : list Real) (h : Host) :
  evalState (computeValues m (c :: cs)) h
  = evalState (computeValue m c) h
    :: evalState (computeValues m cs) (execState (computeValue m c) h).
Proof.
  cbn [QpProperties.computeValues].
  rewrite state_bind_eval, state_bind_eval. reflexivity.
Qed.

Lemma computeValues_app_exec (m : t) (cs ds : list Real) (h : Host) :
  execState (computeValues m (cs ++ ds)) h
  = execState (computeValues m ds) (execState (computeValues m cs) h).
Proof.
  revert h. induction cs as [|c cs IH]; intros h; [reflexivity|].
  rewrite <- app_comm_cons, !computeValues_cons_exec. apply IH.
Qed.

Lemma computeValues_quiet (m : t) (cs : list Real) (h : Host) :
  negb (warned h) && (t_step h =? 0)%Z = false ->
  execState (computeValues m cs) h = h.
Proof.
  intros Hq. induction cs as [|c cs IH]; [reflexivity|].
  rewrite computeValues_cons_exec, computeValue_state.
  rewrite <- andb_assoc, Hq, andb_false_r. exact IH.
Qed.

Lemma computeValues_state (m : t) (cs : list Real) (h : Host) :
  execState (computeValues m cs) h
  = if negb (warned h) && (t_step h =? 0)%Z then
      match find (outside m) cs with
      | Some c =>
          {| warned := true; t_step := t_step h;
             notifications :=
               notifications h ++ [WarnOutsideDomain c (x_min m) (x_max m)] |}
      | None => h
      end
    else h.
Proof.
  destruct (negb (warned h) && (t_step h =? 0)%Z) eqn:Hq;
    [|apply computeValues_quiet; exact Hq].
  revert h Hq. induction cs as [|c cs IH]; intros h Hq; [reflexivity|].
  rewrite computeValues_cons_exec, computeValue_state. cbn [find].
  destruct (outside m c) eqn:Ho.
  - rewrite <- andb_assoc, Hq. cbn [andb].
    apply computeValues_quiet. reflexivity.
  - cbn [andb]. apply IH. exact Hq.
Qed.

Lemma computeValues_values (m : t) (cs : list Real) (h : Host) :
  evalState (computeValues m cs) h
  = map (fun c => sample (spline m) (clampToDomain m c)) cs.
Proof.
  revert h. induction cs as [|c cs IH]; intros h; [reflexivity|].
  rewrite computeValues_cons_eval, computeValue_value, IH. reflexivity.
Qed.

End LoopBody.

(** ** The phases of [computeQpProperties] *)

Lemma run_read (storage : Assembly -> list Real) (s : Assembly) :
  runStateT (read storage) s
  = match nth_error (storage s) (_qp s) with
    | Some a => Some (a, s)
    | None => None
    end.
Proof. reflexivity. Qed.

Lemma run_if {A : Type} (b : bool) (p q : Qp A) (s : Assembly) :
  runStateT (if b then p else q) s
  = if b then runStateT p s else runStateT q s.
Proof. destruct b; reflexivity. Qed.

Section Phases.

Context {T : Type} `{SplineInterpolation T}.

Local Abbreviation t := (@SplineParsedMaterial.t T).
Local Abbreviation spline := SplineParsedMaterial._spline.
Local Abbreviation clampToDomain := SplineParsedMaterial.clampToDomain.
Local Abbreviation computeValue := SplineParsedMaterial.computeValue.
Local Abbreviation computeValues := QpProperties.computeValues.
Local Abbreviation stores_dF_dc := QpProperties.stores_dF_dc.
Local Abbreviation stores_d2F_dc2 := QpProperties.stores_d2F_dc2.
Local Abbreviation stored := QpProperties.stored.

(** The store phase succeeds exactly inside the storage, and then leaves
    [stored]. *)
Lemma store_run (m : t) (s : Assembly) :
  runStateT (QpProperties.store m) s
  = match nth_error (_c_val s) (_qp s) with
    | None => None
    | Some c_val =>
        if (_qp s <? length (_f s))%nat
           && (negb (stores_dF_dc m) || (_qp s <? length (dF_dc_values s))%nat)
           && (negb (stores_d2F_dc2 m)
               || (_qp s <? length (d2F_dc2_values s))%nat)
        then Some ((c_val, sample (spline m) (clampToDomain m c_val)),
                   stored m s c_val)
        else None
    end.
Proof.
  unfold QpProperties.store, QpProperties.stored,
    QpProperties.stores_dF_dc, QpProperties.stores_d2F_dc2.
  rewrite run_bind, run_read.
  destruct (nth_error (_c_val s) (_qp s)) as [c_val|]; [|reflexivity].
  rewrite run_bind, run_call, computeValue_value.
  rewrite run_bind. cbn [write_f runStateT with_host _qp _f].
  destruct (_qp s <? length (_f s))%nat; [|reflexivity]. cbn [andb].
  rewrite run_bind, run_if.
  destruct ((1 <=? SplineParsedMaterial._derivative_order m)%N
            && SplineParsedMaterial._dF_dc m).
  - rewrite run_bind, run_call, computeDerivative_value, computeDerivative_state.
    cbn [write_dF_dc runStateT with_host _qp dF_dc_values host].
    destruct (_qp s <? length (dF_dc_values s))%nat; [|reflexivity].
    cbn [negb orb andb].
    rewrite run_bind, run_if.
    destruct ((2 <=? SplineParsedMaterial._derivative_order m)%N
              && SplineParsedMaterial._d2F_dc2 m).
    + rewrite run_bind, run_call, computeDerivative_value,
        computeDerivative_state.
      cbn [write_d2F_dc2 runStateT with_host _qp d2F_dc2_values host].
      destruct (_qp s <? length (d2F_dc2_values s))%nat; reflexivity.
    + reflexivity.
  - rewrite run_ret. cbn [negb orb andb].
    rewrite run_bind, run_if.
    destruct ((2 <=? SplineParsedMaterial._derivative_order m)%N
              && SplineParsedMaterial._d2F_dc2 m).
    + rewrite run_bind, run_call, computeDerivative_value,
        computeDerivative_state.
      cbn [write_d2F_dc2 runStateT with_host _qp d2F_dc2_values host].
      destruct (_qp s <? length (d2F_dc2_values s))%nat; reflexivity.
    + reflexivity.
Qed.

End Phases.

Lemma run_moose_out (l : Line) (s : Assembly) :
  runStateT (moose_out l) s
  = Some (tt, {| host := host s; _qp := _qp s; _c_val := _c_val s;
                 _f := _f s; dF_dc_values := dF_dc_values s;
                 d2F_dc2_values := d2F_dc2_values s;
                 console := console s ++ [l] |}).
Proof. reflexivity. Qed.

Lemma nth_error_in_range (v : list Real) (i : nat) :
  (i <? length v)%nat = true -> exists a, nth_error v i = Some a.
Proof.
  intros Hi. apply Nat.ltb_lt in Hi.
  destruct (nth_error v i) as [a|] eqn:E; [eauto|].
  apply nth_error_None in E. lia.
Qed.

Lemma nth_error_out_of_range (v : list Real) (i : nat) :
  (i <? length v)%nat = false -> nth_error v i = None.
Proof.
  intros Hi. apply Nat.ltb_ge in Hi. apply nth_error_None. exact Hi.
Qed.

Ltac qp_run :=
  repeat (first [ rewrite run_bind, run_moose_out
                | rewrite run_bind, run_call
                | rewrite run_moose_out
                | rewrite run_ret ];
          cbn [host _qp _c_val _f dF_dc_values d2F_dc2_values console
               with_host]).

Ltac in_storage v i :=
  let a := fresh "a" in
  let E := fresh "E" in
  let Hr := fresh "Hr" in
  destruct (i <? length v)%nat eqn:Hr;
  [ destruct (nth_error_in_range v i Hr) as [a E]; rewrite E
  | rewrite (nth_error_out_of_range v i Hr) ].

Section Output.

Context {T : Type} `{SplineInterpolation T} `{DoubleArithmetic}.

Local Abbreviation t := (@SplineParsedMaterial.t T).
Local Abbreviation computeValue := SplineParsedMaterial.computeValue.
Local Abbreviation computeValues := QpProperties.computeValues.

(** The cross-check block leaves the storage alone; it queries the value
    at the two probes once per cross-check that runs, and it
    needs the derivative entries it prints. *)
Lemma verification_output_run (m : t) (c f : Real) (s : Assembly) :
  let first := (_qp s =? 0)%nat && (t_step (host s) =? 0)%Z in
  let prints_dF := first && SplineParsedMaterial._dF_dc m in
  let prints_d2F := first && SplineParsedMaterial._d2F_dc2 m in
  if (negb prints_dF || (_qp s <? length (dF_dc_values s))%nat)
     && (negb prints_d2F || (_qp s <? length (d2F_dc2_values s))%nat)
  then
    exists s' l,
      runStateT (QpProperties.verification_output m c f) s = Some (tt, s')
      /\ host s'
         = execState
             (computeValues m
                ((if prints_dF then [fadd c eps; fsub c eps] else [])
                 ++ (if prints_d2F then [fadd c eps; fsub c eps] else [])))
             (host s)
      /\ _qp s' = _qp s /\ _c_val s' = _c_val s /\ _f s' = _f s
      /\ dF_dc_values s' = dF_dc_values s
      /\ d2F_dc2_values s' = d2F_dc2_values s
      /\ console s' = console s ++ l
      /\ (first = false -> l = [])
  else runStateT (QpProperties.verification_output m c f) s = None.
Proof.
  cbv zeta. unfold QpProperties.verification_output.
  rewrite run_bind. unfold first_point_of_first_step. cbn [runStateT].
  destruct ((_qp s =? 0)%nat && (t_step (host s) =? 0)%Z) eqn:Hfirst;
    cbn [andb negb orb].
  2:{ exists s, []. rewrite run_ret.
      repeat split; try reflexivity. symmetry. apply app_nil_r. }
  rewrite run_bind. cbn [runStateT]. qp_run.
  rewrite run_bind, run_if.
  destruct (SplineParsedMaterial._dF_dc m); cbn [negb orb andb].
  - rewrite run_bind, run_read. cbn [dF_dc_values _qp].
    in_storage (dF_dc_values s) (_qp s); [|reflexivity]. cbn [andb].
    qp_run. rewrite run_if.
    destruct (SplineParsedMaterial._d2F_dc2 m); cbn [negb orb].
    + rewrite run_bind, run_read. cbn [d2F_dc2_values _qp].
      in_storage (d2F_dc2_values s) (_qp s); [|reflexivity].
      qp_run. eexists. eexists. split; [reflexivity|].
      cbn [host _qp _c_val _f dF_dc_values d2F_dc2_values console app].
      rewrite !computeValues_cons_exec, <- !app_assoc.
      repeat split. discriminate.
    + qp_run. eexists. eexists. split; [reflexivity|].
      cbn [host _qp _c_val _f dF_dc_values d2F_dc2_values console app].
      rewrite !computeValues_cons_exec, <- !app_assoc.
      repeat split. discriminate.
  - qp_run. rewrite run_if.
    destruct (SplineParsedMaterial._d2F_dc2 m); cbn [negb orb].
    + rewrite run_bind, run_read. cbn [d2F_dc2_values _qp].
      in_storage (d2F_dc2_values s) (_qp s); [|reflexivity].
      qp_run. eexists. eexists. split; [reflexivity|].
      cbn [host _qp _c_val _f dF_dc_values d2F_dc2_values console app].
      rewrite !computeValues_cons_exec, <- !app_assoc.
      repeat split. discriminate.
    + qp_run. eexists. eexists. split; [reflexivity|].
      cbn [host _qp _c_val _f dF_dc_values d2F_dc2_values console app].
      rewrite <- !app_assoc.
      repeat split. discriminate.
Qed.

(** The property list only prints, and only at the first point of the
    first step. *)
Lemma property_check_output_run (m : t) (s : Assembly) :
  exists s' l,
    runStateT (QpProperties.property_check_output m) s = Some (tt, s')
    /\ host s' = host s /\ _qp s' = _qp s /\ _c_val s' = _c_val s
    /\ _f s' = _f s /\ dF_dc_values s' = dF_dc_values s
    /\ d2F_dc2_values s' = d2F_dc2_values s
    /\ console s' = console s ++ l
    /\ ((_qp s =? 0)%nat && (t_step (host s) =? 0)%Z = false -> l = []).
Proof.
  unfold QpProperties.property_check_output.
  rewrite run_bind. unfold first_point_of_first_step. cbn [runStateT].
  destruct ((_qp s =? 0)%nat && (t_step (host s) =? 0)%Z) eqn:Hfirst.
  2:{ exists s, []. rewrite run_ret.
      repeat split; try reflexivity. symmetry. apply app_nil_r. }
  qp_run. rewrite run_bind, run_if.
  destruct (SplineParsedMaterial._dF_dc m); qp_run; rewrite run_if;
    destruct (SplineParsedMaterial._d2F_dc2 m); qp_run;
    (eexists; eexists; split; [reflexivity|]);
    cbn [host _qp _c_val _f dF_dc_values d2F_dc2_values console];
    rewrite <- !app_assoc; repeat split; discriminate.
Qed.

End Output.

(** ** The whole loop body *)

Section WholeBody.

Context {T : Type} `{SplineInterpolation T} `{DoubleArithmetic}.

Local Abbreviation t := (@SplineParsedMaterial.t T).
Local Abbreviation spline := SplineParsedMaterial._spline.
Local Abbreviation clampToDomain := SplineParsedMaterial.clampToDomain.
Local Abbreviation computeValue := SplineParsedMaterial.computeValue.
Local Abbreviation computeValues := QpProperties.computeValues.
Local Abbreviation computeQpProperties := QpProperties.computeQpProperties.

Lemma computeValue_t_step (m : t) (c : Real) (h : Host) :
  t_step (execState (computeValue m c) h) = t_step h.
Proof.
  rewrite computeValue_state.
  destruct (SplineParsedMaterial.outside m c && negb (warned h)
            && (t_step h =? 0)%Z); reflexivity.
Qed.

Lemma computeValues_t_step (m : t) (cs : list Real) (h : Host) :
  t_step (execState (computeValues m cs) h) = t_step h.
Proof.
  rewrite computeValues_state.
  destruct (negb (warned h) && (t_step h =? 0)%Z); [|reflexivity].
  destruct (find (SplineParsedMaterial.outside m) cs); reflexivity.
Qed.

Lemma length_if_assign (b : bool) (v : list Real) (i : nat) (a : Real) :
  length (if b then assign v i a else v) = length v.
Proof. destruct b; [apply assign_length | reflexivity]. Qed.

Lemma computeQpProperties_no_point (m : t) (s : Assembly) :
  nth_error (_c_val s) (_qp s) = None ->
  runStateT (computeQpProperties m) s = None.
Proof.
  intros Hc. unfold QpProperties.computeQpProperties.
  rewrite run_bind, store_run, Hc. reflexivity.
Qed.

(** What one run of the loop body does to the assembly. *)
Lemma computeQpProperties_run (m : t) (s : Assembly) (c_val : Real) :
  nth_error (_c_val s) (_qp s) = Some c_val ->
  if QpProperties.within_storage m s then
    exists s' l,
      runStateT (computeQpProperties m) s = Some (tt, s')
      /\ host s'
         = execState (computeValues m (QpProperties.value_queries m s)) (host s)
      /\ _qp s' = _qp s /\ _c_val s' = _c_val s
      /\ _f s' = assign (_f s) (_qp s) (sample (spline m) (clampToDomain m c_val))
      /\ dF_dc_values s'
         = (if QpProperties.stores_dF_dc m
            then assign (dF_dc_values s) (_qp s)
                   (sampleDerivative (spline m) (clampToDomain m c_val))
            else dF_dc_values s)
      /\ d2F_dc2_values s'
         = (if QpProperties.stores_d2F_dc2 m
            then assign (d2F_dc2_values s) (_qp s)
                   (sample2ndDerivative (spline m) (clampToDomain m c_val))
            else d2F_dc2_values s)
      /\ console s' = console s ++ l
      /\ (QpProperties.first_point s = false -> l = [])
  else runStateT (computeQpProperties m) s = None.
Proof.
  intros Hc.
  unfold QpProperties.computeQpProperties, QpProperties.within_storage,
    QpProperties.value_queries, QpProperties.first_point.
  rewrite run_bind, store_run, Hc.
  destruct ((_qp s <? length (_f s))%nat
            && (negb (QpProperties.stores_dF_dc m)
                || (_qp s <? length (dF_dc_values s))%nat)
            && (negb (QpProperties.stores_d2F_dc2 m)
                || (_qp s <? length (d2F_dc2_values s))%nat)) eqn:Hstore;
    [|reflexivity].
  cbn [andb fst snd]. rewrite run_bind.
  pose proof (verification_output_run m c_val
                (sample (spline m) (clampToDomain m c_val))
                (QpProperties.stored m s c_val)) as Hv.
  cbv zeta in Hv. unfold QpProperties.stored in *.
  cbn [host _qp _c_val _f dF_dc_values d2F_dc2_values console] in Hv.
  rewrite computeValue_t_step, !length_if_assign in Hv.
  destruct ((negb ((_qp s =? 0)%nat && (t_step (host s) =? 0)%Z
                   && SplineParsedMaterial._dF_dc m)
             || (_qp s <? length (dF_dc_values s))%nat)
            && (negb ((_qp s =? 0)%nat && (t_step (host s) =? 0)%Z
                      && SplineParsedMaterial._d2F_dc2 m)
                || (_qp s <? length (d2F_dc2_values s))%nat)) eqn:Hprint.
  - destruct Hv as (s1 & l1 & Hrun & Hh & Hq & Hcv & Hf & Hd & Hd2 & Hl & Hl0).
    rewrite Hrun.
    destruct (property_check_output_run m s1)
      as (s2 & l2 & Hrun2 & Hh2 & Hq2 & Hcv2 & Hf2 & Hd2' & Hd22 & Hl2 & Hl20).
    rewrite Hrun2. exists s2, (l1 ++ l2). split; [reflexivity|].
    assert (Hfirst1 : (_qp s1 =? 0)%nat && (t_step (host s1) =? 0)%Z
                      = (_qp s =? 0)%nat && (t_step (host s) =? 0)%Z)
      by (rewrite Hq, Hh, computeValues_t_step, computeValue_t_step;
          reflexivity).
    rewrite Hfirst1 in Hl20.
    rewrite Hh2, Hh, Hq2, Hq, Hcv2, Hcv, Hf2, Hf, Hd2', Hd, Hd22, Hd2, Hl2, Hl.
    rewrite computeValues_cons_exec, app_assoc.
    repeat split.
    intros Hfirst. rewrite Hl0, Hl20 by exact Hfirst. reflexivity.
  - rewrite Hv. reflexivity.
Qed.

End WholeBody.

(** * Further properties of the constructor *)

Section ConstructorProperties.

Context {T : Type} `{SplineInterpolation T}.

Local Abbreviation construct := (@SplineParsedMaterial.SplineParsedMaterial T _).
Local Abbreviation t := (@SplineParsedMaterial.t T).
Local Abbreviation x_min := SplineParsedMaterial._x_min.
Local Abbreviation x_max := SplineParsedMaterial._x_max.

(** X1.  The validation reports the first failing test only: a length
    mismatch is reported exactly when [x] is not empty and the lengths
    differ, and unordered knots are reported exactly when the lengths
    agree and some [x[i] <= x[i-1]]. *)
Theorem construction_error_precedence (p : InputParameters) :
  (construct p = LengthMismatch
   <-> x p <> [] /\ length (x p) <> length (y p))
  /\ (construct p = NotStrictlyIncreasing
      <-> length (y p) = length (x p)
          /\ exists i, (1 <= i < length (x p))%nat
                       /\ nth i (x p) 0 <= nth (i - 1) (x p) 0).
Proof.
  split; split.
  - unfold SplineParsedMaterial.SplineParsedMaterial, LengthMismatch.
    destruct (x p) as [|a w]; [discriminate|]. cbn [front back].
    destruct (Nat.eqb_spec (length (a :: w)) (length (y p)));
      cbn [negb]; [|intros _; split; [discriminate | assumption]].
    destruct (length (a :: w) <? 2)%nat; [discriminate|].
    destruct (SplineParsedMaterial.monotonicity_violated (a :: w));
      discriminate.
  - intros [Hx Hlen]. apply construct_length_mismatch; assumption.
  - unfold SplineParsedMaterial.SplineParsedMaterial, NotStrictlyIncreasing.
    destruct (x p) as [|a w]; [discriminate|]. cbn [front back].
    destruct (Nat.eqb_spec (length (a :: w)) (length (y p)));
      cbn [negb]; [|discriminate].
    destruct (length (a :: w) <? 2)%nat; [discriminate|].
    destruct (SplineParsedMaterial.monotonicity_violated (a :: w)) eqn:Hv;
      [|discriminate].
    intros _. split; [congruence|].
    apply monotonicity_violated_true. exact Hv.
  - intros [Hlen Hex]. apply construct_not_increasing; assumption.
Qed.

(** X2.  Construction succeeds exactly on equally long [x] and [y] with
    at least two strictly increasing knots. *)
Theorem construction_succeeds_iff (p : InputParameters) :
  (exists m log, construct p = Constructed m log)
  <-> length (x p) = length (y p) /\ (2 <= length (x p))%nat
      /\ strictly_increasing (x p).
Proof.
  split.
  - intros (m & log & Hc).
    destruct (constructed_inv p m log Hc) as (Hlen & Hn & Hs & _).
    auto.
  - intros (Hlen & Hn & Hs). apply construct_valid; assumption.
Qed.

(** X3.  The cached domain bounds of a constructed object are knots, the
    lower one strictly below the upper one, and every knot lies between
    them. *)
Theorem constructed_knots_within_domain
    (p : InputParameters) (m : t) (log : list Notification) :
  construct p = Constructed m log ->
  x_min m < x_max m
  /\ In (x_min m) (x p) /\ In (x_max m) (x p)
  /\ forall i, (i < length (x p))%nat ->
       x_min m <= nth i (x p) 0 <= x_max m.
Proof.
  intros Hc. pose proof (constructed_domain p m log Hc) as Hd.
  destruct (constructed_inv p m log Hc)
    as (_ & Hn & Hs & _ & _ & _ & Hlo & Hhi).
  split; [exact Hd|]. rewrite Hlo, Hhi.
  split; [apply nth_In; lia|]. split; [apply nth_In; lia|].
  intros i Hi. split; apply strictly_increasing_le; try assumption; lia.
Qed.

(** X4.  A [spline_variable] that differs from the coupled variable only
    raises a warning: the object is named after the coupled variable, and
    the same object is built whatever [spline_variable] says. *)
Theorem spline_variable_only_warns
    (p : InputParameters) (m : t) (log : list Notification) (v : string) :
  construct p = Constructed m log ->
  SplineParsedMaterial._var_name m = coupled_variables p
  /\ (log = [] <-> spline_variable p = coupled_variables p)
  /\ construct (set_spline_variable v p)
     = Constructed m
         (if String.eqb v (coupled_variables p) then []
          else [WarnVariableMismatch v (coupled_variables p)]).
Proof.
  unfold SplineParsedMaterial.SplineParsedMaterial.
  cbn [x y yp1 ypn spline_variable coupled_variables property_name
       derivative_order set_spline_variable].
  destruct (front (x p)), (back (x p)); try discriminate.
  destruct (negb (length (x p) =? length (y p))%nat); [discriminate|].
  destruct (length (x p) <? 2)%nat; [discriminate|].
  destruct (SplineParsedMaterial.monotonicity_violated (x p)); [discriminate|].
  intros Hc. injection Hc as <- <-.
  split; [reflexivity|]. split; [|reflexivity].
  destruct (String.eqb_spec (spline_variable p) (coupled_variables p)).
  - split; auto.
  - split; [discriminate | contradiction].
Qed.

(** The flags of a constructed object follow [derivative_order]. *)
Lemma constructed_flags
    (p : InputParameters) (m : t) (log : list Notification) :
  construct p = Constructed m log ->
  SplineParsedMaterial._derivative_order m = derivative_order p
  /\ SplineParsedMaterial._dF_dc m = (1 <=? derivative_order p)%N
  /\ SplineParsedMaterial._d2F_dc2 m = (2 <=? derivative_order p)%N.
Proof.
  unfold SplineParsedMaterial.SplineParsedMaterial.
  destruct (front (x p)), (back (x p)); try discriminate.
  destruct (negb (length (x p) =? length (y p))%nat); [discriminate|].
  destruct (length (x p) <? 2)%nat; [discriminate|].
  destruct (SplineParsedMaterial.monotonicity_violated (x p)); [discriminate|].
  intros Hc. injection Hc as <- _. repeat split.
Qed.

End ConstructorProperties.

(** * Further properties of the queries *)

Section QueryProperties.

Context {T : Type} `{SplineInterpolation T}.

Local Abbreviation construct := (@SplineParsedMaterial.SplineParsedMaterial T _).
Local Abbreviation t := (@SplineParsedMaterial.t T).
Local Abbreviation spline := SplineParsedMaterial._spline.
Local Abbreviation x_min := SplineParsedMaterial._x_min.
Local Abbreviation x_max := SplineParsedMaterial._x_max.
Local Abbreviation clampToDomain := SplineParsedMaterial.clampToDomain.
Local Abbreviation outside := SplineParsedMaterial.outside.
Local Abbreviation computeValue := SplineParsedMaterial.computeValue.
Local Abbreviation computeDerivative := SplineParsedMaterial.computeDerivative.
Local Abbreviation computeValues := QpProperties.computeValues.

Lemma inside_not_outside (m : t) (c : Real) :
  x_min m <= c <= x_max m -> outside m c = false.
Proof.
  intros [Hlo Hhi]. unfold SplineParsedMaterial.outside.
  apply Qle_not_lt, Qltb_nlt in Hlo. apply Qle_not_lt, Qltb_nlt in Hhi.
  rewrite Hlo, Hhi. reflexivity.
Qed.

(** X5.  A query at a coordinate inside the domain, the two boundaries
    included, samples the spline at that very coordinate; the value
    query then neither warns nor sets the [warned] flag, whatever the
    host state. *)
Theorem in_domain_queries_are_silent (m : t) (c : Real) (h : Host) :
  x_min m <= c <= x_max m ->
  runState (computeValue m c) h = (sample (spline m) c, h)
  /\ runState (computeDerivative m c 0) h = (sample (spline m) c, h)
  /\ runState (computeDerivative m c 1) h = (sampleDerivative (spline m) c, h)
  /\ runState (computeDerivative m c 2) h
     = (sample2ndDerivative (spline m) c, h).
Proof.
  intros Hin. pose proof (inside_not_outside m c Hin) as Ho.
  unfold SplineParsedMaterial.outside in Ho.
  unfold SplineParsedMaterial.computeValue,
    SplineParsedMaterial.computeDerivative.
  rewrite Ho. repeat split.
Qed.

(** X6.  On a constructed object clamping is idempotent and monotone,
    and a query gives at [c] what it gives at the clamped [c]. *)
Theorem clamping_idempotent_monotone
    (p : InputParameters) (m : t) (log : list Notification) :
  construct p = Constructed m log ->
  (forall c, clampToDomain m (clampToDomain m c) = clampToDomain m c)
  /\ (forall c1 c2, c1 <= c2 -> clampToDomain m c1 <= clampToDomain m c2)
  /\ (forall c h h',
        evalState (computeValue m (clampToDomain m c)) h
        = evalState (computeValue m c) h')
  /\ (forall c order h h',
        evalState (computeDerivative m (clampToDomain m c) order) h
        = evalState (computeDerivative m c order) h').
Proof.
  intros Hc. pose proof (constructed_domain p m log Hc) as Hd.
  assert (Hidem : forall c,
             clampToDomain m (clampToDomain m c) = clampToDomain m c)
    by (intros c; apply clamp_inside, clamp_in_domain, Hd).
  split; [exact Hidem|]. split; [|split].
  - intros c1 c2 Hle.
    destruct (clamp_in_domain m c1 Hd) as [Hlo1 Hhi1].
    destruct (clamp_in_domain m c2 Hd) as [Hlo2 Hhi2].
    destruct (Qlt_le_dec c1 (x_min m)) as [Hb1|Hb1];
      [rewrite (clamp_below m c1 Hb1); exact Hlo2|].
    destruct (Qlt_le_dec (x_max m) c2) as [Ha2|Ha2];
      [rewrite (clamp_above m c2 Hd Ha2); exact Hhi1|].
    rewrite (clamp_inside m c1), (clamp_inside m c2); [exact Hle | |].
    + split; [apply Qle_trans with c1; assumption | exact Ha2].
    + split; [exact Hb1 | apply Qle_trans with c2; assumption].
  - intros c h h'. rewrite !computeValue_value, Hidem. reflexivity.
  - intros c order h h'. rewrite !computeDerivative_value, Hidem. reflexivity.
Qed.

(** X7.  Over any sequence of value queries the results are the clamped
    samples, and at most one warning is emitted: none if the [warned]
    flag was set or the time step is not [0], otherwise one for the first
    out-of-domain coordinate of the sequence, which also sets the flag. *)
Theorem value_query_sequence (m : t) (cs : list Real) (h : Host) :
  evalState (computeValues m cs) h
  = map (fun c => sample (spline m) (clampToDomain m c)) cs
  /\ execState (computeValues m cs) h
     = if negb (warned h) && (t_step h =? 0)%Z then
         match find (outside m) cs with
         | Some c =>
             {| warned := true; t_step := t_step h;
                notifications :=
                  notifications h
                  ++ [WarnOutsideDomain c (x_min m) (x_max m)] |}
         | None => h
         end
       else h.
Proof.
  split; [apply computeValues_values | apply computeValues_state].
Qed.

(** The notifications of a sequence of value queries extend the ones
    before by at most one. *)
Lemma computeValues_notifications (m : t) (cs : list Real) (h : Host) :
  exists l,
    notifications (execState (computeValues m cs) h) = notifications h ++ l
    /\ (length l <= 1)%nat
    /\ (warned h = true \/ t_step h <> 0%Z ->
        execState (computeValues m cs) h = h)
    /\ (warned h = true -> warned (execState (computeValues m cs) h) = true).
Proof.
  rewrite computeValues_state.
  destruct (warned h) eqn:Hw; cbn [negb andb].
  - exists []. rewrite app_nil_r.
        repeat split; simpl; auto; try lia; discriminate.
  - destruct (Z.eqb_spec (t_step h) 0) as [Ht|Ht].
    + destruct (find (outside m) cs) as [c|].
      * eexists. cbn [notifications]. split; [reflexivity|].
        split; [simpl; lia|]. split; [|discriminate].
        intros [Hq|Hq]; [discriminate | contradiction].
      * exists []. rewrite app_nil_r.
        repeat split; simpl; auto; try lia; discriminate.
    + exists []. rewrite app_nil_r.
        repeat split; simpl; auto; try lia; discriminate.
Qed.

End QueryProperties.

(** * Properties of the loop body *)

Section LoopBodyProperties.

Context {T : Type} `{SplineInterpolation T} `{DoubleArithmetic}.

Local Abbreviation construct := (@SplineParsedMaterial.SplineParsedMaterial T _).
Local Abbreviation t := (@SplineParsedMaterial.t T).
Local Abbreviation spline := SplineParsedMaterial._spline.
Local Abbreviation x_min := SplineParsedMaterial._x_min.
Local Abbreviation x_max := SplineParsedMaterial._x_max.
Local Abbreviation clampToDomain := SplineParsedMaterial.clampToDomain.
Local Abbreviation outside := SplineParsedMaterial.outside.
Local Abbreviation computeValue := SplineParsedMaterial.computeValue.
Local Abbreviation computeValues := QpProperties.computeValues.
Local Abbreviation computeQpProperties := QpProperties.computeQpProperties.

Lemma stores_constructed
    (p : InputParameters) (m : t) (log : list Notification) :
  construct p = Constructed m log ->
  QpProperties.stores_dF_dc m = (1 <=? derivative_order p)%N
  /\ QpProperties.stores_d2F_dc2 m = (2 <=? derivative_order p)%N.
Proof.
  intros Hc. destruct (constructed_flags p m log Hc) as (Ho & Hd & Hd2).
  unfold QpProperties.stores_dF_dc, QpProperties.stores_d2F_dc2.
  rewrite Ho, Hd, Hd2, !andb_diag. split; reflexivity.
Qed.

Lemma within_storage_constructed
    (p : InputParameters) (m : t) (log : list Notification) (s : Assembly) :
  construct p = Constructed m log ->
  QpProperties.within_storage m s = true
  <-> (_qp s < length (_f s))%nat
      /\ ((1 <= derivative_order p)%N -> (_qp s < length (dF_dc_values s))%nat)
      /\ ((2 <= derivative_order p)%N
          -> (_qp s < length (d2F_dc2_values s))%nat).
Proof.
  intros Hc. destruct (stores_constructed p m log Hc) as (Hs & Hs2).
  destruct (constructed_flags p m log Hc) as (_ & Hd & Hd2).
  unfold QpProperties.within_storage. rewrite Hs, Hs2, Hd, Hd2.
  destruct (N.leb_spec 1 (derivative_order p)),
    (N.leb_spec 2 (derivative_order p)),
    (Nat.ltb_spec (_qp s) (length (_f s))),
    (Nat.ltb_spec (_qp s) (length (dF_dc_values s))),
    (Nat.ltb_spec (_qp s) (length (d2F_dc2_values s)));
    destruct (QpProperties.first_point s); cbn;
    (split; [intros E; try discriminate E; repeat split; intros; lia
            | intros (E1 & E2 & E3); try reflexivity; lia]).
Qed.

(** One run of the loop body on a constructed object within storage. *)
Lemma constructed_run
    (p : InputParameters) (m : t) (log : list Notification) (s : Assembly) :
  construct p = Constructed m log ->
  point_in_storage (derivative_order p) s ->
  exists c_val s' l,
    nth_error (_c_val s) (_qp s) = Some c_val
    /\ runStateT (computeQpProperties m) s = Some (tt, s')
    /\ host s'
       = execState (computeValues m (QpProperties.value_queries m s)) (host s)
    /\ _qp s' = _qp s /\ _c_val s' = _c_val s
    /\ _f s' = assign (_f s) (_qp s) (sample (spline m) (clampToDomain m c_val))
    /\ dF_dc_values s'
       = (if (1 <=? derivative_order p)%N
          then assign (dF_dc_values s) (_qp s)
                 (sampleDerivative (spline m) (clampToDomain m c_val))
          else dF_dc_values s)
    /\ d2F_dc2_values s'
       = (if (2 <=? derivative_order p)%N
          then assign (d2F_dc2_values s) (_qp s)
                 (sample2ndDerivative (spline m) (clampToDomain m c_val))
          else d2F_dc2_values s)
    /\ console s' = console s ++ l
    /\ (QpProperties.first_point s = false -> l = []).
Proof.
  intros Hc (Hcv & Hin).
  destruct (nth_error (_c_val s) (_qp s)) as [c_val|] eqn:E;
    [|apply nth_error_None in E; lia].
  pose proof (computeQpProperties_run m s c_val E) as Hrun.
  rewrite (proj2 (within_storage_constructed p m log s Hc) Hin) in Hrun.
  destruct (stores_constructed p m log Hc) as (Hs & Hs2).
  rewrite Hs, Hs2 in Hrun.
  destruct Hrun as (s' & l & Hrun). exists c_val, s', l.
  split; [reflexivity | exact Hrun].
Qed.

(** X8.  On a constructed object the loop body has a defined result
    exactly when [_qp] indexes the coupled variable, [_f] and each
    derivative storage that [derivative_order] asks for. *)
Theorem computeQpProperties_defined_iff
    (p : InputParameters) (m : t) (log : list Notification) (s : Assembly) :
  construct p = Constructed m log ->
  (exists s', runStateT (computeQpProperties m) s = Some (tt, s'))
  <-> point_in_storage (derivative_order p) s.
Proof.
  intros Hc. split.
  - intros (s' & Hrun).
    destruct (nth_error (_c_val s) (_qp s)) as [c_val|] eqn:E.
    + split; [apply nth_error_Some; congruence|].
      pose proof (computeQpProperties_run m s c_val E) as Hr.
      destruct (QpProperties.within_storage m s) eqn:Hw; [|congruence].
      apply (within_storage_constructed p m log s Hc). exact Hw.
    + rewrite (computeQpProperties_no_point m s E) in Hrun. discriminate.
  - intros Hin.
    destruct (constructed_run p m log s Hc Hin) as (c & s' & l & _ & Hrun & _).
    exists s'. exact Hrun.
Qed.

(** X9.  A run stores, at entry [_qp] only, the value sampled at the
    clamped coupled variable and the derivatives of the orders up to
    [derivative_order]; every other entry, the storage sizes, [_qp] and
    the coupled variable are left as they were. *)
Theorem computeQpProperties_stores
    (p : InputParameters) (m : t) (log : list Notification) (s : Assembly) :
  construct p = Constructed m log ->
  point_in_storage (derivative_order p) s ->
  exists c_val s',
    nth_error (_c_val s) (_qp s) = Some c_val
    /\ runStateT (computeQpProperties m) s = Some (tt, s')
    /\ _qp s' = _qp s /\ _c_val s' = _c_val s
    /\ length (_f s') = length (_f s)
    /\ length (dF_dc_values s') = length (dF_dc_values s)
    /\ length (d2F_dc2_values s') = length (d2F_dc2_values s)
    /\ (forall j, nth j (_f s') 0
                  = if (j =? _qp s)%nat
                    then sample (spline m) (clampToDomain m c_val)
                    else nth j (_f s) 0)
    /\ (forall j, nth j (dF_dc_values s') 0
                  = if (j =? _qp s)%nat && (1 <=? derivative_order p)%N
                    then sampleDerivative (spline m) (clampToDomain m c_val)
                    else nth j (dF_dc_values s) 0)
    /\ (forall j, nth j (d2F_dc2_values s') 0
                  = if (j =? _qp s)%nat && (2 <=? derivative_order p)%N
                    then sample2ndDerivative (spline m) (clampToDomain m c_val)
                    else nth j (d2F_dc2_values s) 0).
Proof.
  intros Hc Hin.
  destruct (constructed_run p m log s Hc Hin)
    as (c & s' & l & E & Hrun & _ & Hq & Hcv & Hf & Hd & Hd2 & _).
  destruct Hin as (_ & Hif & Hid & Hid2).
  exists c, s'. rewrite Hf, Hd, Hd2, !length_if_assign, assign_length.
  repeat split; try assumption.
  - intros j. apply assign_nth. exact Hif.
  - intros j. destruct (N.leb_spec 1 (derivative_order p)).
    + rewrite andb_true_r. apply assign_nth. auto.
    + rewrite andb_false_r. reflexivity.
  - intros j. destruct (N.leb_spec 2 (derivative_order p)).
    + rewrite andb_true_r. apply assign_nth. auto.
    + rewrite andb_false_r. reflexivity.
Qed.

(** X10.  Away from the first point of the first time step a run prints
    nothing and queries the value once, at the coupled variable; after
    the first time step it leaves the host state as it was. *)
Theorem diagnostics_only_at_first_point
    (p : InputParameters) (m : t) (log : list Notification) (s : Assembly) :
  construct p = Constructed m log ->
  point_in_storage (derivative_order p) s ->
  (_qp s <> 0%nat \/ t_step (host s) <> 0%Z) ->
  exists c_val s',
    nth_error (_c_val s) (_qp s) = Some c_val
    /\ runStateT (computeQpProperties m) s = Some (tt, s')
    /\ console s' = console s
    /\ host s' = execState (computeValue m c_val) (host s)
    /\ (t_step (host s) <> 0%Z -> host s' = host s).
Proof.
  intros Hc Hin Hnot.
  destruct (constructed_run p m log s Hc Hin)
    as (c & s' & l & E & Hrun & Hh & _ & _ & _ & _ & _ & Hl & Hl0).
  assert (Hfirst : QpProperties.first_point s = false).
  { unfold QpProperties.first_point.
    destruct Hnot as [Hq|Ht].
    - destruct (Nat.eqb_spec (_qp s) 0); [contradiction | reflexivity].
    - destruct (Z.eqb_spec (t_step (host s)) 0); [contradiction|].
      apply andb_false_r. }
  exists c, s'. rewrite Hl, (Hl0 Hfirst), app_nil_r, Hh.
  unfold QpProperties.value_queries, QpProperties.first_point in *.
  rewrite E, Hfirst. cbn [andb app].
  rewrite computeValues_cons_exec.
  repeat split; try assumption.
  intros Ht. rewrite computeValue_state.
  destruct (Z.eqb_spec (t_step (host s)) 0); [contradiction|].
  rewrite andb_false_r. reflexivity.
Qed.

(** X11.  A run emits at most one warning, none at all once the [warned]
    flag is set or after the first time step; it never clears the flag
    and never changes the time step. *)
Theorem computeQpProperties_warns_at_most_once
    (p : InputParameters) (m : t) (log : list Notification) (s : Assembly) :
  construct p = Constructed m log ->
  point_in_storage (derivative_order p) s ->
  exists s' l,
    runStateT (computeQpProperties m) s = Some (tt, s')
    /\ notifications (host s') = notifications (host s) ++ l
    /\ (length l <= 1)%nat
    /\ (warned (host s) = true \/ t_step (host s) <> 0%Z -> host s' = host s)
    /\ (warned (host s) = true -> warned (host s') = true)
    /\ t_step (host s') = t_step (host s).
Proof.
  intros Hc Hin.
  destruct (constructed_run p m log s Hc Hin)
    as (c & s' & l & _ & Hrun & Hh & _).
  destruct (computeValues_notifications m (QpProperties.value_queries m s)
              (host s)) as (w & Hn & Hlen & Hq & Hw).
  exists s', w. rewrite Hh, computeValues_t_step. auto 10.
Qed.

(** X12.  At the first point of the first time step, with a derivative
    requested and no warning raised so far, a coupled variable inside
    the domain whose finite-difference probe, the sum [c_val + eps] as
    the machine computes it (or else the difference [c_val - eps]),
    falls outside the domain makes the run warn about that probe, a
    coordinate the variable never took; the value stored is still the
    sample at the variable itself. *)
Theorem boundary_point_cross_check_warns
    (p : InputParameters) (m : t) (log : list Notification) (s : Assembly)
    (c_val : Real) :
  construct p = Constructed m log ->
  point_in_storage (derivative_order p) s ->
  (1 <= derivative_order p)%N ->
  _qp s = 0%nat -> t_step (host s) = 0%Z -> warned (host s) = false ->
  nth_error (_c_val s) 0 = Some c_val ->
  x_min m <= c_val <= x_max m ->
  exists s',
    runStateT (computeQpProperties m) s = Some (tt, s')
    /\ nth 0 (_f s') 0 = sample (spline m) c_val
    /\ (fadd c_val eps < x_min m \/ x_max m < fadd c_val eps ->
        host s'
        = {| warned := true; t_step := 0;
             notifications :=
               notifications (host s)
               ++ [WarnOutsideDomain (fadd c_val eps) (x_min m) (x_max m)] |})
    /\ (x_min m <= fadd c_val eps <= x_max m ->
        fsub c_val eps < x_min m \/ x_max m < fsub c_val eps ->
        host s'
        = {| warned := true; t_step := 0;
             notifications :=
               notifications (host s)
               ++ [WarnOutsideDomain (fsub c_val eps) (x_min m) (x_max m)] |}).
Proof.
  intros Hc Hin Ho Hq Ht Hw E Hdom.
  destruct (constructed_run p m log s Hc Hin)
    as (c & s' & l & E' & Hrun & Hh & _ & _ & Hf & _).
  rewrite Hq in E'. rewrite E in E'. injection E' as <-.
  destruct (constructed_flags p m log Hc) as (_ & Hd & _).
  apply N.leb_le in Ho. rewrite Ho in Hd.
  exists s'. split; [exact Hrun|].
  assert (Hinside : outside m c_val = false)
    by (apply inside_not_outside; exact Hdom).
  assert (Hout : forall c, c < x_min m \/ x_max m < c -> outside m c = true).
  { intros c [Hlo|Hhi]; unfold SplineParsedMaterial.outside.
    - apply Qltb_lt in Hlo. rewrite Hlo. reflexivity.
    - apply Qltb_lt in Hhi. rewrite Hhi. apply orb_true_r. }
  split; [|split].
  - rewrite Hf, assign_nth by (destruct Hin as (_ & Hif & _); exact Hif).
    rewrite Hq, (clamp_inside m c_val Hdom). reflexivity.
  - intros Hplus. rewrite Hh, computeValues_state, Hw, Ht.
    unfold QpProperties.value_queries. rewrite Hq, E, Ht, Hd.
    cbn [negb andb Nat.eqb Z.eqb app find].
    rewrite Hinside, (Hout _ Hplus). reflexivity.
  - intros Hplus Hminus. rewrite Hh, computeValues_state, Hw, Ht.
    unfold QpProperties.value_queries. rewrite Hq, E, Ht, Hd.
    cbn [negb andb Nat.eqb Z.eqb app find].
    rewrite Hinside, (inside_not_outside m _ Hplus), (Hout _ Hminus).
    reflexivity.
Qed.

(** X13.  What a run stores does not depend on the host state or on the
    console: two assemblies with the same point, coupled variable and
    storage end with the same storage. *)
Theorem stored_values_independent_of_host
    (p : InputParameters) (m : t) (log : list Notification)
    (s1 s2 : Assembly) :
  construct p = Constructed m log ->
  point_in_storage (derivative_order p) s1 ->
  _qp s1 = _qp s2 -> _c_val s1 = _c_val s2 -> _f s1 = _f s2 ->
  dF_dc_values s1 = dF_dc_values s2 ->
  d2F_dc2_values s1 = d2F_dc2_values s2 ->
  exists s1' s2',
    runStateT (computeQpProperties m) s1 = Some (tt, s1')
    /\ runStateT (computeQpProperties m) s2 = Some (tt, s2')
    /\ _f s1' = _f s2'
    /\ dF_dc_values s1' = dF_dc_values s2'
    /\ d2F_dc2_values s1' = d2F_dc2_values s2'.
Proof.
  intros Hc Hin1 Hq Hcv Hf Hd Hd2.
  assert (Hin2 : point_in_storage (derivative_order p) s2)
    by (unfold point_in_storage in *; rewrite <- Hq, <- Hcv, <- Hf, <- Hd, <- Hd2;
        exact Hin1).
  destruct (constructed_run p m log s1 Hc Hin1)
    as (c1 & s1' & l1 & E1 & Hrun1 & _ & _ & _ & Hf1 & Hd1 & Hd21 & _).
  destruct (constructed_run p m log s2 Hc Hin2)
    as (c2 & s2' & l2 & E2 & Hrun2 & _ & _ & _ & Hf2 & Hd12 & Hd22 & _).
  rewrite Hq, Hcv, E2 in E1. injection E1 as <-.
  exists s1', s2'. rewrite Hf1, Hf2, Hd1, Hd12, Hd21, Hd22, Hq, Hf, Hd, Hd2.
  repeat split; assumption.
Qed.

End LoopBodyProperties.

(** * Instances on the example data *)

#[global] Existing Instance exact_arithmetic.

Lemma zigzag_point_in_storage (c : Real) (qp : nat) (h : Host) :
  (qp < 2)%nat -> point_in_storage 2 (assembly_at c qp h).
Proof. intros Hq. repeat split; intros; simpl; exact Hq. Qed.

Lemma construction_error_precedence_witness :
  @SplineParsedMaterial.SplineParsedMaterial CubicSpline.SplineData _
    (params_of [1; 3; 2] [1; 2]) = LengthMismatch
  /\ @SplineParsedMaterial.SplineParsedMaterial CubicSpline.SplineData _
       (params_of [1; 3; 2] [1; 2; 3]) = NotStrictlyIncreasing.
Proof.
  split.
  - apply (proj1 (construction_error_precedence (params_of [1; 3; 2] [1; 2]))).
    split; discriminate.
  - apply (proj2 (construction_error_precedence
                    (params_of [1; 3; 2] [1; 2; 3]))).
    split; [reflexivity|].
    exists 2%nat. split; [simpl; lia | discriminate].
Defined.

Lemma construction_succeeds_iff_witness :
  length [0; 1; 2; 3; 4] = length [0; 1; 0; 1; 0]
  /\ (2 <= length [0; 1; 2; 3; 4])%nat
  /\ strictly_increasing [0; 1; 2; 3; 4].
Proof.
  apply (proj1 (construction_succeeds_iff
                  (T := CubicSpline.SplineData)
                  (params_of [0; 1; 2; 3; 4] [0; 1; 0; 1; 0]))).
  exists zigzag_material, []. reflexivity.
Defined.

Lemma constructed_knots_within_domain_witness :
  SplineParsedMaterial.SplineParsedMaterial
    (params_of [0; 1; 2; 3; 4] [0; 1; 0; 1; 0])
  = Constructed zigzag_material []
  /\ 0 < 4
  /\ forall i, (i < 5)%nat -> 0 <= nth i [0; 1; 2; 3; 4] 0 <= 4.
Proof.
  split; [reflexivity|].
  destruct (constructed_knots_within_domain
              (params_of [0; 1; 2; 3; 4] [0; 1; 0; 1; 0])
              zigzag_material [] zigzag_constructed)
    as (Hd & _ & _ & Hk).
  split; [exact Hd | exact Hk].
Defined.

Lemma spline_variable_only_warns_witness :
  SplineParsedMaterial.SplineParsedMaterial relabelled_params
  = Constructed relabelled_material [WarnVariableMismatch "eta" "c"]
  /\ SplineParsedMaterial.SplineParsedMaterial
       (set_spline_variable "c" relabelled_params)
     = Constructed relabelled_material [].
Proof.
  split; [reflexivity|].
  exact (proj2 (proj2 (spline_variable_only_warns relabelled_params
                         relabelled_material
                         [WarnVariableMismatch "eta" "c"] "c"
                         relabelled_constructed))).
Defined.

Lemma in_domain_queries_are_silent_witness :
  0 <= 4 <= 4
  /\ runState (SplineParsedMaterial.computeValue zigzag_material 4) fresh_host
     = (CubicSpline.value zigzag 4, fresh_host).
Proof.
  assert (Hin : 0 <= 4 <= 4) by (split; discriminate).
  split; [exact Hin|].
  exact (proj1 (in_domain_queries_are_silent zigzag_material 4 fresh_host Hin)).
Defined.

Lemma clamping_idempotent_monotone_witness :
  SplineParsedMaterial.SplineParsedMaterial
    (params_of [0; 1; 2; 3; 4] [0; 1; 0; 1; 0])
  = Constructed zigzag_material []
  /\ (forall c,
        SplineParsedMaterial.clampToDomain zigzag_material
          (SplineParsedMaterial.clampToDomain zigzag_material c)
        = SplineParsedMaterial.clampToDomain zigzag_material c)
  /\ (forall c1 c2, c1 <= c2 ->
        SplineParsedMaterial.clampToDomain zigzag_material c1
        <= SplineParsedMaterial.clampToDomain zigzag_material c2).
Proof.
  split; [reflexivity|].
  destruct (clamping_idempotent_monotone
              (params_of [0; 1; 2; 3; 4] [0; 1; 0; 1; 0])
              zigzag_material [] zigzag_constructed)
    as (Hi & Hm & _).
  split; [exact Hi | exact Hm].
Defined.

Lemma computeQpProperties_defined_iff_witness :
  (point_in_storage 2 (assembly_at 4 1 fresh_host)
   /\ exists s',
        runStateT (QpProperties.computeQpProperties zigzag_material)
          (assembly_at 4 1 fresh_host) = Some (tt, s'))
  /\ ~ point_in_storage 2 (assembly_at 4 2 fresh_host).
Proof.
  assert (Hin : point_in_storage 2 (assembly_at 4 1 fresh_host))
    by (apply zigzag_point_in_storage; lia).
  split; [split; [exact Hin|]|].
  - apply (proj2 (computeQpProperties_defined_iff
                    (params_of [0; 1; 2; 3; 4] [0; 1; 0; 1; 0])
                    zigzag_material [] (assembly_at 4 1 fresh_host)
                    zigzag_constructed)).
    exact Hin.
  - intros Hin2.
    destruct (proj2 (computeQpProperties_defined_iff
                       (params_of [0; 1; 2; 3; 4] [0; 1; 0; 1; 0])
                       zigzag_material [] (assembly_at 4 2 fresh_host)
                       zigzag_constructed)
                Hin2) as (s' & Hrun).
    discriminate Hrun.
Defined.

Lemma computeQpProperties_stores_witness :
  (SplineParsedMaterial.SplineParsedMaterial
     (params_of [0; 1; 2; 3; 4] [0; 1; 0; 1; 0])
   = Constructed zigzag_material []
   /\ point_in_storage 2 (assembly_at 5 1 fresh_host))
  /\ exists s',
       runStateT (QpProperties.computeQpProperties zigzag_material)
         (assembly_at 5 1 fresh_host) = Some (tt, s')
       /\ nth 1 (_f s') 0 = CubicSpline.value zigzag 4
       /\ nth 0 (_f s') 0 = 0.
Proof.
  assert (Hin : point_in_storage 2 (assembly_at 5 1 fresh_host))
    by (apply zigzag_point_in_storage; lia).
  split; [split; [reflexivity | exact Hin]|].
  destruct (computeQpProperties_stores
              (params_of [0; 1; 2; 3; 4] [0; 1; 0; 1; 0])
              zigzag_material [] (assembly_at 5 1 fresh_host)
              zigzag_constructed Hin)
    as (c & s' & E & Hrun & _ & _ & _ & _ & _ & Hf & _).
  injection E as <-.
  exists s'. split; [exact Hrun|]. split; [exact (Hf 1%nat) | exact (Hf 0%nat)].
Defined.

Lemma diagnostics_only_at_first_point_witness :
  (point_in_storage 2 (assembly_at 5 1 fresh_host)
   /\ _qp (assembly_at 5 1 fresh_host) <> 0%nat)
  /\ exists s',
       runStateT (QpProperties.computeQpProperties zigzag_material)
         (assembly_at 5 1 fresh_host) = Some (tt, s')
       /\ console s' = []
       /\ host s'
          = execState (SplineParsedMaterial.computeValue zigzag_material 5)
              fresh_host.
Proof.
  assert (Hin : point_in_storage 2 (assembly_at 5 1 fresh_host))
    by (apply zigzag_point_in_storage; lia).
  assert (Hq : _qp (assembly_at 5 1 fresh_host) <> 0%nat) by discriminate.
  split; [split; assumption|].
  destruct (diagnostics_only_at_first_point
              (params_of [0; 1; 2; 3; 4] [0; 1; 0; 1; 0])
              zigzag_material [] (assembly_at 5 1 fresh_host)
              zigzag_constructed Hin
              (or_introl Hq))
    as (c & s' & E & Hrun & Hcon & Hh & _).
  injection E as <-.
  exists s'. split; [exact Hrun|]. split; [exact Hcon | exact Hh].
Defined.

Lemma computeQpProperties_warns_at_most_once_witness :
  point_in_storage 2 (assembly_at 5 0 fresh_host)
  /\ exists s' l,
       runStateT (QpProperties.computeQpProperties zigzag_material)
         (assembly_at 5 0 fresh_host) = Some (tt, s')
       /\ notifications (host s') = [] ++ l
       /\ (length l <= 1)%nat.
Proof.
  assert (Hin : point_in_storage 2 (assembly_at 5 0 fresh_host))
    by (apply zigzag_point_in_storage; lia).
  split; [exact Hin|].
  destruct (computeQpProperties_warns_at_most_once
              (params_of [0; 1; 2; 3; 4] [0; 1; 0; 1; 0])
              zigzag_material [] (assembly_at 5 0 fresh_host)
              zigzag_constructed Hin)
    as (s' & l & Hrun & Hn & Hlen & _).
  exists s', l. split; [exact Hrun|]. split; [exact Hn | exact Hlen].
Defined.

Lemma boundary_point_cross_check_warns_witness :
  (point_in_storage 2 (assembly_at 4 0 fresh_host)
   /\ 0 <= 4 <= 4 /\ 4 < fadd 4 eps)
  /\ exists s',
       runStateT (QpProperties.computeQpProperties zigzag_material)
         (assembly_at 4 0 fresh_host) = Some (tt, s')
       /\ nth 0 (_f s') 0 = CubicSpline.value zigzag 4
       /\ host s'
          = {| warned := true; t_step := 0;
               notifications := [WarnOutsideDomain (fadd 4 eps) 0 4] |}.
Proof.
  assert (Hin : point_in_storage 2 (assembly_at 4 0 fresh_host))
    by (apply zigzag_point_in_storage; lia).
  assert (Hdom : 0 <= 4 <= 4) by (split; discriminate).
  assert (Hhi : 4 < fadd 4 eps) by reflexivity.
  split; [split; [exact Hin | split; assumption]|].
  destruct (boundary_point_cross_check_warns
              (params_of [0; 1; 2; 3; 4] [0; 1; 0; 1; 0])
              zigzag_material [] (assembly_at 4 0 fresh_host) 4
              zigzag_constructed Hin ltac:(discriminate) eq_refl eq_refl eq_refl
              eq_refl Hdom)
    as (s' & Hrun & Hf & Hwarn & _).
  exists s'. split; [exact Hrun|].
  split; [exact Hf | exact (Hwarn (or_intror Hhi))].
Defined.

Lemma stored_values_independent_of_host_witness :
  point_in_storage 2 (assembly_at 5 0 fresh_host)
  /\ exists s1' s2',
       runStateT (QpProperties.computeQpProperties zigzag_material)
         (assembly_at 5 0 fresh_host) = Some (tt, s1')
       /\ runStateT (QpProperties.computeQpProperties zigzag_material)
            (assembly_at 5 0 warned_host) = Some (tt, s2')
       /\ _f s1' = _f s2'
       /\ dF_dc_values s1' = dF_dc_values s2'
       /\ d2F_dc2_values s1' = d2F_dc2_values s2'.
Proof.
  assert (Hin : point_in_storage 2 (assembly_at 5 0 fresh_host))
    by (apply zigzag_point_in_storage; lia).
  split; [exact Hin|].
  exact (stored_values_independent_of_host
           (params_of [0; 1; 2; 3; 4] [0; 1; 0; 1; 0])
           zigzag_material [] (assembly_at 5 0 fresh_host)
           (assembly_at 5 0 warned_host) zigzag_constructed Hin
           eq_refl eq_refl eq_refl eq_refl eq_refl).
Defined.
